(** * xiaomusic-online: the LX plugin runner

    A shallow embedding of [xiaomusic/lx_plugin_runner.js] (the runner) and
    of its near-duplicate variant, followed by the properties of the
    event registry, of the module-to-host [send] primitive and of the
    line-delimited stdin/stdout protocol.

    Layout: JavaScript values and the few platform operations the runner
    relies on; the observable effects; the event registry ([on], [emit],
    [send]); the dispatcher ([handleExternalRequest] and the six runner
    methods); the stdin listener and the start-up code; the variant; the
    HTTP helper [request] and the start-up of the variant; then the
    theorems. *)

From stdpp Require Import base option list gmap strings numbers pretty.

Open Scope string_scope.
Open Scope list_scope.
Open Scope nat_scope.

(** ** JavaScript values *)

(** Numbers are restricted to integers: the runner never computes with
    them, it only passes them through. [VErr name message] is an instance
    of [Error] or of one of its subclasses; [VFun k] is a function object,
    identified by [k]. *)
#[warnings="-register-all"]
Inductive value : Type :=
| VUndefined
| VNull
| VBool (b : bool)
| VNum (n : Z)
| VStr (s : string)
| VArr (xs : list value)
| VObj (fields : list (string * value))
| VErr (name message : string)
| VFun (k : nat).

(** The result of evaluating an expression: a value, or a thrown value. *)
Inductive completion (A : Type) : Type :=
| Normal (a : A)
| Abrupt (e : value).
Arguments Normal {A} a.
Arguments Abrupt {A} e.

Module JS.

Definition quote : string := String (Ascii.ascii_of_nat 34) "".

Definition Error (message : string) : value := VErr "Error" message.
Definition TypeError (message : string) : value := VErr "TypeError" message.
Definition SyntaxError (message : string) : value := VErr "SyntaxError" message.
Definition ReferenceError (message : string) : value := VErr "ReferenceError" message.

(** [v === undefined || v === null] *)
Definition nullish (v : value) : bool :=
  match v with
  | VUndefined | VNull => true
  | _ => false
  end.

(** ToBoolean *)
Definition truthy (v : value) : bool :=
  match v with
  | VUndefined | VNull | VBool false | VStr "" => false
  | VNum n => negb (n =? 0)%Z
  | _ => true
  end.

Definition lookup_field (k : string) (fields : list (string * value)) : value :=
  match List.find (fun kv => String.eqb (fst kv) k) fields with
  | Some kv => snd kv
  | None => VUndefined
  end.

(** [v.k] for the property names the runner reads ([id], [method],
    [params], [keyword], [page], [limit], [source], [options],
    [musicItem], [albumId], [artistId], [quality], [message]): a
    TypeError on [undefined] and [null], the own property of an object,
    the message of an error, [undefined] on every other value. *)
Definition prop (k : string) (v : value) : completion value :=
  match v with
  | VUndefined =>
      Abrupt (TypeError ("Cannot read properties of undefined (reading '" +:+ k +:+ "')"))
  | VNull =>
      Abrupt (TypeError ("Cannot read properties of null (reading '" +:+ k +:+ "')"))
  | VObj fields => Normal (lookup_field k fields)
  | VErr _ message => Normal (if String.eqb k "message" then VStr message else VUndefined)
  | _ => Normal VUndefined
  end.

(** [v?.k] *)
Definition prop_opt (k : string) (v : value) : value :=
  match prop k v with
  | Normal x => x
  | Abrupt _ => VUndefined
  end.

(** A parameter default, [k = d] in a parameter list: it replaces
    [undefined] only. *)
Definition param_default (d v : value) : value :=
  match v with
  | VUndefined => d
  | _ => v
  end.

(** [a || b] *)
Definition or_else (a b : value) : value := if truthy a then a else b.

Definition join_comma (parts : list string) : string :=
  match parts with
  | [] => ""
  | p :: ps => fold_left (fun acc q => acc +:+ "," +:+ q) ps p
  end.

(** ToString, as used by template literals. *)
Fixpoint ToString (v : value) : string :=
  match v with
  | VUndefined => "undefined"
  | VNull => "null"
  | VBool true => "true"
  | VBool false => "false"
  | VNum n => pretty n
  | VStr s => s
  | VArr xs =>
      join_comma
        ((fix elements (l : list value) : list string :=
            match l with
            | [] => []
            | x :: l' => (if nullish x then "" else ToString x) :: elements l'
            end) xs)
  | VObj _ => "[object Object]"
  | VErr name message => if String.eqb message "" then name else name +:+ ": " +:+ message
  | VFun _ => "function () { [native code] }"
  end.

(** [JSON.stringify(v)] is [undefined], not a string, exactly when [v] is
    [undefined] or a function. *)
Definition stringify_defined (v : value) : bool :=
  match v with
  | VUndefined | VFun _ => false
  | _ => true
  end.

(** [JSON.stringify(v).substring(0, n)]: the call made inside the log
    messages. It throws when [JSON.stringify] returned [undefined]. *)
Definition stringify_substring (v : value) : completion unit :=
  if stringify_defined v then Normal tt
  else Abrupt (TypeError "Cannot read properties of undefined (reading 'substring')").

(** [line.trim() === ''] on ASCII text. *)
Definition is_space (c : Ascii.ascii) : bool :=
  let n := Ascii.nat_of_ascii c in
  ((n =? 32) || ((9 <=? n) && (n <=? 13)))%nat.

Fixpoint blank (s : string) : bool :=
  match s with
  | EmptyString => true
  | String c s' => is_space c && blank s'
  end.

Definition is_newline (c : Ascii.ascii) : bool := (Ascii.nat_of_ascii c =? 10)%nat.

Definition newline : string := String (Ascii.ascii_of_nat 10) "".

End JS.

(** ** Observable effects *)

Inductive level := DEBUG | INFO | WARN | ERROR.

(** The program points that write a line to [process.stdout]: [send] in
    the runner (line 178) and in the variant (line 120); the response to
    the [n]-th non-blank line (line 558); the error response of the
    listener's outer [catch] (line 566); the readiness notification (line
    579); the error response at a failed load (lines 587 and 598). *)
Inductive site :=
| SendInited
| SendAny
| Response (n : nat)
| ParseFailure
| Ready
| LoadFailed.

(** Callbacks stored in the registry: a function of the plugin, or one of
    the one-shot closures the variant's [search] and [getMediaSource]
    create ([Listener event n] resolves the promise of call [n]). *)
Inductive fn :=
| Plugin (k : nat)
| Listener (event : string) (n : nat).

Global Instance fn_eq_dec : EqDecision fn.
Proof. solve_decision. Defined.

(** What the process does that can be seen from outside, and three marks
    for what happens inside ([Received], [Invoke], [Resolved]). A log entry
    keeps the fixed part of its text: the time stamp, durations and
    interpolated values are left out. *)
Inductive effect :=
| Stdout (s : site) (doc : value)      (* process.stdout.write(JSON.stringify(doc) + '\n') *)
| Log (l : level) (msg : string)       (* logToFile(level, message) *)
| Stderr (msg : string) (e : value)    (* console.error(msg, e) *)
| PostMessage (msg : value)            (* parentPort.postMessage(msg) *)
| Received (n : nat) (line : string)   (* the listener starts on its n-th non-blank line *)
| Invoke (f : fn) (arg : value)        (* a registered callback is called *)
| Resolved (n : nat) (v : value)       (* a one-shot listener resolves its promise *)
| Unhandled (e : value)                (* a promise is rejected and nothing handles it *)
| Exit (code : Z).                     (* the process exits *)

(** ** Shared state *)

(** The registry [events]: a JavaScript object from event names to array
    objects. Arrays are kept in a heap, [arrays], indexed by their address,
    since [emit] holds on to one array object while callbacks run: putting
    another array under the same name is not the same as changing the
    array in place. [lx_available] is the test
    [globalThis.lx && globalThis.lx.events]; [priv] stands for the
    plugin's own variables. *)
Record store := Store {
  events : gmap string nat;
  arrays : list (list fn);
  lx_available : bool;
  priv : value;
}.

Definition array_at (l : nat) (s : store) : list fn := default [] (arrays s !! l).

(** What a plugin function does when it is called: it may change the
    store, call [send] any number of times, and then returns a plain
    value, throws, or returns a promise that is still pending. *)
Inductive handler_result :=
| Returns (v : value)
| Throws (e : value)
| Deferred.

Record reaction := Reaction {
  r_store : store;
  r_sends : list (string * value);
  r_result : handler_result;
}.

(** What the runner does not define itself: [JSON.parse] ([inl detail]
    is a SyntaxError with that message); the plugin, that is the result of
    reading its file, its top level as compiled and run by [loadPlugin]
    (where [Throws] also covers a compile error), and its functions; the
    two [worker_threads] constants; and whether Node terminates the process
    on an unhandled rejection (the default since Node 15). *)
Record env := Env {
  JSON_parse : string -> string + value;
  plugin : nat -> value -> store -> reaction;
  readFileSync : completion unit;
  plugin_main : store -> reaction;
  isMainThread : bool;
  parentPort : bool;
  unhandled_rejections_throw : bool;
}.

Inductive outcome :=
| Fulfilled (v : value)
| Rejected (e : value).

Inductive promise_state :=
| Settled (o : outcome)
| Pending.

(** An invocation of the stdin listener suspended at the [await] of the
    [n]-th line: what it still needs to finish that line. *)
Record task := Task {
  t_n : nat;
  t_id : value;
  t_method : string;
  t_stalled : bool;
}.

(** [trace] lists the effects so far, newest first. [buffer] and
    [messageCount] are the listener's two closure variables. [alive]
    holds from the registration of the listener until the process exits. *)
Record state := State {
  shared : store;
  trace : list effect;
  buffer : string;
  messageCount : nat;
  waiting : list task;
  alive : bool;
}.

Definition set_shared (s : store) (st : state) : state :=
  State s (trace st) (buffer st) (messageCount st) (waiting st) (alive st).
Definition emit_effect (e : effect) (st : state) : state :=
  State (shared st) (e :: trace st) (buffer st) (messageCount st) (waiting st) (alive st).
Definition set_buffer (b : string) (st : state) : state :=
  State (shared st) (trace st) b (messageCount st) (waiting st) (alive st).
Definition set_messageCount (n : nat) (st : state) : state :=
  State (shared st) (trace st) (buffer st) n (waiting st) (alive st).
Definition set_waiting (w : list task) (st : state) : state :=
  State (shared st) (trace st) (buffer st) (messageCount st) w (alive st).
Definition set_alive (a : bool) (st : state) : state :=
  State (shared st) (trace st) (buffer st) (messageCount st) (waiting st) a.

(** Projections of the trace, newest first. *)
Definition stdout_of (t : list effect) : list (site * value) :=
  omap (fun e => match e with Stdout s d => Some (s, d) | _ => None end) t.
Definition invoked_of (t : list effect) : list fn :=
  omap (fun e => match e with Invoke f _ => Some f | _ => None end) t.

Definition logToFile (l : level) (msg : string) : state -> state := emit_effect (Log l msg).
Definition logDebug := logToFile DEBUG.
Definition logInfo := logToFile INFO.
Definition logWarn := logToFile WARN.
Definition logError := logToFile ERROR.

(** A rejected promise that nothing handles. *)
Definition unhandled (E : env) (e : value) (st : state) : state :=
  let st := emit_effect (Unhandled e) st in
  if unhandled_rejections_throw E then set_alive false (emit_effect (Exit 1) st) else st.

(** ** The event registry *)

Module Registry.

(** [on]: lines 150-155 of the runner, 96-101 of the variant. *)
Definition on (event : string) (callback : fn) (s : store) : store :=
  match events s !! event with
  | Some l =>
      Store (events s) (alter (fun a => a ++ [callback]) l (arrays s))
            (lx_available s) (priv s)
  | None =>
      Store (<[event := length (arrays s)]> (events s)) (arrays s ++ [[callback]])
            (lx_available s) (priv s)
  end.

(** [a.indexOf(f)] *)
Fixpoint indexOf (f : fn) (a : list fn) : option nat :=
  match a with
  | [] => None
  | g :: a' => if decide (g = f) then Some 0 else S <$> indexOf f a'
  end.

(** [a.splice(i, 1)] *)
Definition splice1 (i : nat) (a : list fn) : list fn := take i a ++ drop (S i) a.

(** The cleanup at the start of the variant's one-shot closures
    (lines 202-207 and 241-246). *)
Definition unregister (event : string) (f : fn) (s : store) : store :=
  match events s !! event with
  | Some l =>
      match indexOf f (array_at l s) with
      | Some i => Store (events s) (alter (splice1 i) l (arrays s)) (lx_available s) (priv s)
      | None => s
      end
  | None => s
  end.

(** [send] of the runner, lines 169-183. *)
Definition send (E : env) (event : string) (data : value) (st : state)
  : completion unit * state :=
  let msg := VObj [("event", VStr event); ("data", data)] in
  if parentPort E then (Normal tt, emit_effect (PostMessage msg) st)
  else if String.eqb event "inited" then (Normal tt, emit_effect (Stdout SendInited msg) st)
  else
    match JS.stringify_substring data with
    | Normal _ => (Normal tt, logDebug ("[LX Plugin Event] " +:+ event) st)
    | Abrupt e => (Abrupt e, st)
    end.

(** The calls to [send] a plugin function makes; an exception of [send]
    is thrown into the plugin's code. *)
Definition sends (send : string -> value -> state -> completion unit * state)
    (l : list (string * value)) (st : state) : state :=
  fold_left (fun st ed => snd (send (fst ed) (snd ed) st)) l st.

(** Calling a registered callback. *)
Definition call (E : env) (send : string -> value -> state -> completion unit * state)
    (f : fn) (arg : value) (st : state) : handler_result * state :=
  let st := emit_effect (Invoke f arg) st in
  match f with
  | Plugin k =>
      let r := plugin E k arg (shared st) in
      (r_result r, sends send (r_sends r) (set_shared (r_store r) st))
  | Listener event n =>
      (Returns VUndefined,
       emit_effect (Resolved n arg) (set_shared (unregister event f (shared st)) st))
  end.

(** The body of the arrow function passed to [forEach], with its
    [try]/[catch]. *)
Definition emit_callback (E : env) send (event : string) (data : value) (f : fn)
    (st : state) : state :=
  match call E send f data st with
  | (Throws e, st') => emit_effect (Stderr ("Event callback error for " +:+ event +:+ ":") e) st'
  | (_, st') => st'
  end.

(** [Array.prototype.forEach] on the array object at address [l]: the
    length is read once, before the first call; then every index below
    it is visited in order, reading the array as it is at that moment
    and skipping an index that is no longer there. *)
Definition forEach (l : nat) (body : fn -> state -> state) (st : state) : state :=
  fold_left
    (fun st k =>
       match array_at l (shared st) !! k with
       | Some f => body f st
       | None => st
       end)
    (seq 0 (length (array_at l (shared st)))) st.

(** [emit]: lines 156-166 of the runner, 102-112 of the variant. *)
Definition emit (E : env) send (event : string) (data : value) (st : state) : state :=
  match events (shared st) !! event with
  | Some l => forEach l (emit_callback E send event data) st
  | None => st
  end.

End Registry.

(** ** Code that reads and writes the state and may throw *)

Definition M (A : Type) : Type := state -> completion A * state.

Definition ret {A} (a : A) : M A := fun st => (Normal a, st).
Definition throw {A} (e : value) : M A := fun st => (Abrupt e, st).
Definition lift {A} (c : completion A) : M A := fun st => (c, st).
Definition act (f : state -> state) : M unit := fun st => (Normal tt, f st).
Definition bind {A B} (m : M A) (k : A -> M B) : M B :=
  fun st =>
    match m st with
    | (Normal a, st') => k a st'
    | (Abrupt e, st') => (Abrupt e, st')
    end.
Definition try_catch {A} (m : M A) (handler : value -> M A) : M A :=
  fun st =>
    match m st with
    | (Normal a, st') => (Normal a, st')
    | (Abrupt e, st') => handler e st'
    end.

Notation "'do' x <- m ; k" := (bind m (fun x => k))
  (at level 10, x name, m at level 100, k at level 200).
Notation "'run' m ; k" := (bind m (fun _ => k))
  (at level 10, m at level 100, k at level 200).

Definition log (l : level) (msg : string) : M unit := act (logToFile l msg).
Definition write (s : site) (doc : value) : state -> state := emit_effect (Stdout s doc).

(** The outbound message [{ id, result, error }]. [JSON.stringify] leaves
    out a property whose value is [undefined], so a reader of the line
    finds such a property absent. *)
Definition response (id result error : value) : value :=
  VObj [("id", id); ("result", result); ("error", error)].

Definition initResponse : value :=
  response VNull (VObj [("initialized", VBool true)]) VNull.

(** One pass through the body of the listener's [while] loop: the loop
    goes on, or this invocation of the listener ends here (it is suspended
    at an [await], or it threw). *)
Inductive iteration :=
| Continue (st : state)
| Stop (st : state).

(** ** The runner: [xiaomusic/lx_plugin_runner.js] *)

Module Runner.
Section WithEnv.

Context (E : env).

Definition send := Registry.send E.
Definition emit := Registry.emit E send.
Definition call := Registry.call E send.

(** *** The dispatcher *)

Definition descriptor (action : string) (source info : value) : value :=
  VObj [("action", VStr action); ("source", source); ("info", info)].

(** [requestHandlers[0]], when [requestHandlers] is there and not empty. *)
Definition request_handler (s : store) : option fn :=
  events s !! "request" ≫= fun l => array_at l s !! 0.

(** The executor of the promise made by [handleExternalRequest], lines
    190-228, up to the point where the handler has returned. *)
Definition executor (action : string) (source info : value) : M promise_state :=
  try_catch
    (fun st =>
       match request_handler (shared st) with
       | None =>
           (Normal (Settled (Rejected (JS.Error "No request handler registered"))),
            logError ("[Request] No request handler registered for action: " +:+ action) st)
       | Some handler =>
           match call handler (descriptor action source info) st with
           | (Returns v, st') =>
               (Normal (Settled (Fulfilled v)),
                logInfo ("[Request] Success (sync): " +:+ action) st')
           | (Throws e, st') => (Abrupt e, st')
           | (Deferred, st') => (Normal Pending, st')
           end
       end)
    (fun error =>
       run lift (JS.prop "message" error);
       run log ERROR ("[Request] Exception: " +:+ action);
       ret (Settled (Rejected error))).

(** [new Promise(executor)]: an exception of the executor rejects the
    promise. *)
Definition new_Promise (executor : M promise_state) : M promise_state :=
  fun st =>
    match executor st with
    | (Normal p, st') => (Normal p, st')
    | (Abrupt e, st') => (Normal (Settled (Rejected e)), st')
    end.

Definition handleExternalRequest (action : string) (source info : value)
  : M promise_state :=
  run lift (JS.stringify_substring info);
  run log INFO ("[Request] Action: " +:+ action);
  new_Promise (executor action source info).

(** The [.then(...).catch(...)] chain of lines 207-218, run when the
    promise the handler returned is settled. When the [catch] callback
    itself throws, the chain ends in a rejection nobody handles and the
    promise of [handleExternalRequest] is never settled. *)
Definition on_rejected (action : string) (error : value) (st : state)
  : promise_state * state :=
  match JS.prop "message" error with
  | Normal _ => (Settled (Rejected error), logError ("[Request] Failed: " +:+ action) st)
  | Abrupt te => (Pending, unhandled E te st)
  end.

Definition then_catch (action : string) (o : outcome) (st : state)
  : promise_state * state :=
  match o with
  | Fulfilled result =>
      let st := logInfo ("[Request] Success: " +:+ action) st in
      match JS.stringify_substring result with
      | Normal _ => (Settled (Fulfilled result), logDebug "[Request] Result" st)
      | Abrupt te => on_rejected action te st
      end
  | Rejected error => on_rejected action error st
  end.

(** *** The six methods of [LXPluginRunner] *)

Definition require_lx (label : string) : M unit :=
  fun st =>
    if lx_available (shared st) then (Normal tt, st)
    else (Abrupt (JS.Error "LX API not available"),
          logError (label +:+ " LX API not available") st).

(** The end of a method, from the point where its [await] yields [o]:
    the rest of the [try] block and the [catch] block, which logs and
    throws again. *)
Definition resume_method (label : string) (o : outcome) (st : state) : outcome * state :=
  match o with
  | Fulfilled result => (Fulfilled result, logInfo (label +:+ " Completed successfully") st)
  | Rejected error =>
      match JS.prop "message" error with
      | Normal _ => (Rejected error, logError (label +:+ " Failed") st)
      | Abrupt te => (Rejected te, st)
      end
  end.

(** An [async] method whose [try] block checks the API and awaits
    [request]: it runs up to the [await]; when the awaited promise is
    settled already, it runs to its end. *)
Definition async_method (label : string) (request : M promise_state) (st : state)
  : promise_state * state :=
  match (run require_lx label; request) st with
  | (Normal Pending, st') => (Pending, st')
  | (Normal (Settled o), st') =>
      let '(o', st'') := resume_method label o st' in (Settled o', st'')
  | (Abrupt e, st') =>
      let '(o', st'') := resume_method label (Rejected e) st' in (Settled o', st'')
  end.

Definition search (keyword page limit source options : value) (st : state) :=
  let page := JS.param_default (VNum 1) page in
  let limit := JS.param_default (VNum 30) limit in
  let source := JS.param_default (VStr "all") source in
  async_method "[Search]"
    (handleExternalRequest "search" source
       (VObj [("keyword", keyword); ("page", page); ("limit", limit)]))
    (logInfo "[Search] Keyword" st).

Definition getMediaSource (musicItem source options : value) (st : state) :=
  let source := JS.param_default (VStr "all") source in
  let options := JS.param_default (VObj []) options in
  async_method "[GetMediaSource]"
    (do quality <- lift (JS.prop "quality" options);
     handleExternalRequest "musicUrl" source
       (VObj [("musicInfo", musicItem); ("type", JS.or_else quality (VStr "128k"))]))
    (logInfo "[GetMediaSource] Song" st).

Definition getLyric (musicItem source options : value) (st : state) :=
  let source := JS.param_default (VStr "all") source in
  async_method "[GetLyric]"
    (handleExternalRequest "lyric" source (VObj [("musicInfo", musicItem)]))
    (logInfo "[GetLyric] Song" st).

Definition getAlbum (albumId page limit source options : value) (st : state) :=
  let page := JS.param_default (VNum 1) page in
  let limit := JS.param_default (VNum 30) limit in
  let source := JS.param_default (VStr "all") source in
  async_method "[GetAlbum]"
    (handleExternalRequest "album" source
       (VObj [("albumId", albumId); ("page", page); ("limit", limit)]))
    (logInfo "[GetAlbum] Album ID" st).

Definition getArtist (artistId page limit source options : value) (st : state) :=
  let page := JS.param_default (VNum 1) page in
  let limit := JS.param_default (VNum 30) limit in
  let source := JS.param_default (VStr "all") source in
  async_method "[GetArtist]"
    (handleExternalRequest "artist" source
       (VObj [("artistId", artistId); ("page", page); ("limit", limit)]))
    (logInfo "[GetArtist] Artist ID" st).

Definition getRecommend (musicItem page limit source options : value) (st : state) :=
  let page := JS.param_default (VNum 1) page in
  let limit := JS.param_default (VNum 30) limit in
  let source := JS.param_default (VStr "all") source in
  async_method "[GetRecommend]"
    (handleExternalRequest "recommend" source
       (VObj [("musicInfo", musicItem); ("page", page); ("limit", limit)]))
    (logInfo "[GetRecommend] Song" st).

(** The log label and the action of a method, for the invocations that
    are resumed later. *)
Definition label_of (method : string) : string :=
  if String.eqb method "search" then "[Search]"
  else if String.eqb method "getMediaSource" then "[GetMediaSource]"
  else if String.eqb method "getLyric" then "[GetLyric]"
  else if String.eqb method "getAlbum" then "[GetAlbum]"
  else if String.eqb method "getArtist" then "[GetArtist]"
  else "[GetRecommend]".

Definition action_of (method : string) : string :=
  if String.eqb method "search" then "search"
  else if String.eqb method "getMediaSource" then "musicUrl"
  else if String.eqb method "getLyric" then "lyric"
  else if String.eqb method "getAlbum" then "album"
  else if String.eqb method "getArtist" then "artist"
  else "recommend".

(** *** The stdin listener, lines 463-569 *)

(** [const { id, method, params } = message] *)
Definition destructure (message : value) : completion (value * value * value) :=
  if JS.nullish message then
    Abrupt (JS.TypeError
              ("Cannot destructure property 'id' of 'message' as it is " +:+
               JS.ToString message +:+ "."))
  else
    Normal (JS.prop_opt "id" message, JS.prop_opt "method" message,
            JS.prop_opt "params" message).

(** The [switch] of lines 488-541, up to the [await] of the selected
    case. An exception thrown here is caught by the inner [catch]. *)
Definition dispatch (method params : value) : M promise_state :=
  let unknown : M promise_state :=
    throw (JS.Error ("Unknown method: " +:+ JS.ToString method)) in
  match method with
  | VStr m =>
      if String.eqb m "search" then
        do keyword <- lift (JS.prop "keyword" params);
        do page <- lift (JS.prop "page" params);
        do limit <- lift (JS.prop "limit" params);
        do source <- lift (JS.prop "source" params);
        do options <- lift (JS.prop "options" params);
        fun st => let '(p, st') := search keyword page limit source options st in (Normal p, st')
      else if String.eqb m "getMediaSource" then
        do musicItem <- lift (JS.prop "musicItem" params);
        do source <- lift (JS.prop "source" params);
        do options <- lift (JS.prop "options" params);
        fun st => let '(p, st') := getMediaSource musicItem source options st in (Normal p, st')
      else if String.eqb m "getLyric" then
        do musicItem <- lift (JS.prop "musicItem" params);
        do source <- lift (JS.prop "source" params);
        do options <- lift (JS.prop "options" params);
        fun st => let '(p, st') := getLyric musicItem source options st in (Normal p, st')
      else if String.eqb m "getAlbum" then
        do albumId <- lift (JS.prop "albumId" params);
        do page <- lift (JS.prop "page" params);
        do limit <- lift (JS.prop "limit" params);
        do source <- lift (JS.prop "source" params);
        do options <- lift (JS.prop "options" params);
        fun st => let '(p, st') := getAlbum albumId page limit source options st in (Normal p, st')
      else if String.eqb m "getArtist" then
        do artistId <- lift (JS.prop "artistId" params);
        do page <- lift (JS.prop "page" params);
        do limit <- lift (JS.prop "limit" params);
        do source <- lift (JS.prop "source" params);
        do options <- lift (JS.prop "options" params);
        fun st => let '(p, st') := getArtist artistId page limit source options st in (Normal p, st')
      else if String.eqb m "getRecommend" then
        do musicItem <- lift (JS.prop "musicItem" params);
        do page <- lift (JS.prop "page" params);
        do limit <- lift (JS.prop "limit" params);
        do source <- lift (JS.prop "source" params);
        do options <- lift (JS.prop "options" params);
        fun st => let '(p, st') := getRecommend musicItem page limit source options st in (Normal p, st')
      else unknown
  | _ => unknown
  end.

(** The outer [catch], lines 559-567. Its object literal reads [message],
    a [const] of the [try] block that is not in scope here: evaluating it
    throws a ReferenceError, so the write of line 566 is never reached
    and the promise of this invocation of the listener is rejected. *)
Definition outer_catch (e : value) (st : state) : state :=
  match JS.prop "message" e with
  | Normal _ =>
      unhandled E (JS.ReferenceError "message is not defined")
        (logError "[Main] Error processing message" st)
  | Abrupt te => unhandled E te st
  end.

(** Lines 543-558: from the point where the [await] of the [switch]
    yields [o] to the write of the response. *)
Definition finish (n : nat) (id : value) (o : outcome) (st : state) : iteration :=
  match o with
  | Fulfilled result =>
      let st := logInfo "[Main] Method completed" st in
      let st := logDebug "[Main] Sending response" st in
      Continue (write (Response n) (response id result VNull) st)
  | Rejected e =>
      match JS.prop "message" e with
      | Normal error =>
          let st := logError "[Main] Method failed" st in
          let st := logDebug "[Main] Sending response" st in
          Continue (write (Response n) (response id VUndefined error) st)
      | Abrupt te => Stop (outer_catch te st)
      end
  end.

Definition method_name (method : value) : string :=
  match method with
  | VStr m => m
  | _ => ""
  end.

(** Lines 474-567: the body of the loop for a line that is not blank. *)
Definition handle_line (line : string) (st : state) : iteration :=
  let n := S (messageCount st) in
  let st := set_messageCount n st in
  let st := logDebug "[Main] Received message" (emit_effect (Received n line) st) in
  match JSON_parse E line with
  | inl detail => Stop (outer_catch (JS.SyntaxError detail) st)
  | inr message =>
      match destructure message with
      | Abrupt e => Stop (outer_catch e st)
      | Normal (id, method, params) =>
          match dispatch method params (logInfo "[Main] Processing method" st) with
          | (Normal Pending, st') =>
              Stop (set_waiting (waiting st' ++ [Task n id (method_name method) false]) st')
          | (Normal (Settled o), st') => finish n id o st'
          | (Abrupt e, st') => finish n id (Rejected e) st'
          end
      end
  end.

(** The [while] loop of lines 468-568 on the text [buf] that follows the
    characters [acc] in the buffer: [acc] has no newline. At a newline,
    [acc] is the line and the rest is the new buffer; without one, the
    buffer keeps [acc]. *)
Fixpoint drain (acc buf : string) (st : state) : state :=
  match buf with
  | EmptyString => set_buffer acc st
  | String c buf' =>
      if JS.is_newline c then
        let st := set_buffer buf' st in
        if JS.blank acc then drain "" buf' st
        else
          match handle_line acc st with
          | Continue st' => drain "" buf' st'
          | Stop st' => st'
          end
      else drain (acc +:+ String c "") buf' st
  end.

(** The listener is called with a chunk of input. *)
Definition on_data (data : string) (st : state) : state :=
  if alive st then drain "" (buffer st +:+ data) st else st.

Definition awaits (n : nat) (t : task) : bool := (t_n t =? n) && negb (t_stalled t).

Definition stall (n : nat) (t : task) : task :=
  if awaits n t then Task (t_n t) (t_id t) (t_method t) true else t.

(** The promise awaited for line [n] is settled: the invocation of the
    listener that was suspended there finishes the line and goes back to
    the [while] loop, on the buffer as it is by then. *)
Definition on_settle (n : nat) (o : outcome) (st : state) : state :=
  if alive st then
    match List.find (awaits n) (waiting st) with
    | None => st
    | Some t =>
        match then_catch (action_of (t_method t)) o st with
        | (Pending, st') => set_waiting (map (stall n) (waiting st')) st'
        | (Settled o1, st') =>
            let st' := set_waiting (List.filter (fun t => negb (awaits n t)) (waiting st')) st' in
            let '(o2, st'') := resume_method (label_of (t_method t)) o1 st' in
            match finish n (t_id t) o2 st'' with
            | Continue st3 => drain "" (buffer st3) st3
            | Stop st3 => st3
            end
        end
    end
  else st.

(** *** Start-up, lines 441-601 *)

Definition initial_store : store := Store ∅ [] true VUndefined.

(** The state once the top level of the file has run. *)
Definition initial : state :=
  State initial_store
    [Log INFO "Log file"; Log INFO "Working directory"; Log INFO "Node version";
     Log INFO "========== LX Plugin Runner Starting =========="]
    "" 0 [] false.

(** The [try] block of [loadPlugin], lines 256-287. *)
Definition load : M bool :=
  run lift (readFileSync E);
  run log DEBUG "[Load Plugin] Plugin code size";
  run log DEBUG "[Load Plugin] About to execute plugin in VM context";
  do _ <- (fun st =>
             let r := plugin_main E (shared st) in
             let st := Registry.sends send (r_sends r) (set_shared (r_store r) st) in
             match r_result r with
             | Throws error => (Abrupt error, st)
             | _ => (Normal tt, st)
             end);
  run log INFO "[Load Plugin] Plugin executed successfully";
  ret true.

(** [loadPlugin], lines 253-299. *)
Definition loadPlugin : M bool :=
  run log INFO "[Load Plugin] Starting to load plugin";
  try_catch load
    (fun error =>
       run lift (JS.prop "message" error);
       run log ERROR "[Load Plugin] Failed to load plugin";
       run log ERROR "[Load Plugin] Error stack";
       run (if parentPort E then
              act (emit_effect
                     (PostMessage
                        (VObj [("event", VStr "error");
                               ("data", VObj [("error", JS.prop_opt "message" error);
                                              ("stack", JS.prop_opt "stack" error)])])))
            else ret tt);
       ret false).

Definition errorResponse (error : value) : value := response VNull VNull error.

(** [!pluginPath], where [pluginPath] is [process.argv[2]]. *)
Definition missing (pluginPath : option string) : bool :=
  match pluginPath with
  | Some (String _ _) => false
  | _ => true
  end.

(** The main program, lines 441-601. *)
Definition main (pluginPath : option string) : state :=
  if isMainThread E then
    if missing pluginPath then
      emit_effect (Exit 1) (logError "Usage: node lx_plugin_runner.js <plugin_path>" initial)
    else
        match loadPlugin (logInfo "[Main] Loading plugin" initial) with
        | (Normal true, st) =>
            let st := logInfo "[Main] Plugin loaded successfully, waiting for commands..." st in
            let st := set_alive true st in
            let st := logInfo "[Main] Sending initialization response" st in
            write Ready initResponse st
        | (Normal false, st) =>
            let st := logError "[Main] Failed to load plugin" st in
            emit_effect (Exit 1) (write LoadFailed (errorResponse (VStr "Failed to load plugin")) st)
        | (Abrupt error, st) =>
            let st := logError "[Main] Error loading plugin" st in
            emit_effect (Exit 1)
              (write LoadFailed (errorResponse (JS.prop_opt "message" error)) st)
        end
  else initial.

(** *** Runs *)

(** What happens to the process after start-up: a chunk arrives on
    stdin, or the promise awaited for line [n] is settled. Node runs one
    such task at a time, to its end; a promise that is settled already
    when it is awaited is resumed within the same task, before the next
    input. *)
Inductive input :=
| Data (chunk : string)
| Settle (n : nat) (o : outcome).

Definition step (st : state) (i : input) : state :=
  match i with
  | Data chunk => on_data chunk st
  | Settle n o => on_settle n o st
  end.

Definition run_inputs (st : state) (inputs : list input) : state :=
  fold_left step inputs st.

End WithEnv.
End Runner.

(** ** The variant: the second source file

    The same event registry and the same listener, with these
    differences: [send] has no filter on the event name; the class
    [LXPluginRunner] has the methods [loadPlugin], [search] and
    [getMediaSource] only, and the two do not call the plugin's handler but
    register a one-shot closure and [send] the request; nothing is logged to
    a file. The variant has no [messageCount]: the field numbers the lines
    here as well, to name the closures and the responses. *)

Module Variant.
Section WithEnv.

Context (E : env).

(** [send], lines 115-122. *)
Definition send (event : string) (data : value) (st : state) : completion unit * state :=
  let msg := VObj [("event", VStr event); ("data", data)] in
  if parentPort E then (Normal tt, emit_effect (PostMessage msg) st)
  else (Normal tt, emit_effect (Stdout SendAny msg) st).

Definition emit := Registry.emit E send.

Definition on (event : string) (callback : fn) : M unit :=
  act (fun st => set_shared (Registry.on event callback (shared st)) st).

Definition require_lx : M unit :=
  fun st =>
    if lx_available (shared st) then (Normal tt, st)
    else (Abrupt (JS.Error "LX API not available"), st).

(** The promise a method returns: its executor registers the closure and
    sends the request; the promise stays pending unless the executor
    threw, which its [catch] turns into a rejection. *)
Definition new_Promise (what : string) (executor : M unit) (st : state)
  : promise_state * state :=
  match executor st with
  | (Normal _, st') => (Pending, st')
  | (Abrupt error, st') => (Settled (Rejected error), emit_effect (Stderr what error) st')
  end.

(** [search], lines 192-228; [n] names the closure [searchHandler]. *)
Definition search (n : nat) (keyword page limit source options : value) :=
  let page := JS.param_default (VNum 1) page in
  let limit := JS.param_default (VNum 30) limit in
  let source := JS.param_default (VStr "all") source in
  new_Promise "Search failed:"
    (run require_lx;
     run on "search" (Listener "search" n);
     send "request"
       (VObj [("action", VStr "search"); ("source", source);
              ("info", VObj [("keyword", keyword); ("page", page); ("limit", limit)])])).

(** [getMediaSource], lines 231-266. *)
Definition getMediaSource (n : nat) (musicItem source options : value) :=
  let source := JS.param_default (VStr "all") source in
  let options := JS.param_default (VObj []) options in
  new_Promise "Get media source failed:"
    (run require_lx;
     run on "musicUrl" (Listener "musicUrl" n);
     do quality <- lift (JS.prop "quality" options);
     send "request"
       (VObj [("action", VStr "musicUrl"); ("source", source);
              ("info", VObj [("musicInfo", musicItem);
                             ("type", JS.or_else quality (VStr "128k"))])])).

Definition nth_arg (i : nat) (values : list value) : value :=
  default VUndefined (values !! i).

(** [runner[name]]: the class defines [search] and [getMediaSource]
    (and [loadPlugin]); any other property of [runner] is [undefined]. *)
Definition runner_method (n : nat) (name : string)
  : option (list value -> state -> promise_state * state) :=
  if String.eqb name "search" then
    Some (fun a => search n (nth_arg 0 a) (nth_arg 1 a) (nth_arg 2 a) (nth_arg 3 a) (nth_arg 4 a))
  else if String.eqb name "getMediaSource" then
    Some (fun a => getMediaSource n (nth_arg 0 a) (nth_arg 1 a) (nth_arg 2 a))
  else None.

(** The arguments [params.name], in order. *)
Definition arguments (names : list string) (params : value) : M (list value) :=
  fold_right
    (fun name rest => do v <- lift (JS.prop name params); do vs <- rest; ret (v :: vs))
    (ret []) names.

(** A call [runner.name(args)]: the arguments are evaluated, then the
    callee is called, and a callee that is [undefined] makes the call
    throw. *)
Definition call_method (n : nat) (name : string) (args : M (list value))
  : M promise_state :=
  do values <- args;
  match runner_method n name with
  | Some method => fun st => let '(p, st') := method values st in (Normal p, st')
  | None => throw (JS.TypeError ("runner." +:+ name +:+ " is not a function"))
  end.

(** The [switch] of lines 309-362. *)
Definition dispatch (n : nat) (method params : value) : M promise_state :=
  let unknown : M promise_state :=
    throw (JS.Error ("Unknown method: " +:+ JS.ToString method)) in
  match method with
  | VStr m =>
      if String.eqb m "search" then
        call_method n "search"
          (arguments ["keyword"; "page"; "limit"; "source"; "options"] params)
      else if String.eqb m "getMediaSource" then
        call_method n "getMediaSource" (arguments ["musicItem"; "source"; "options"] params)
      else if String.eqb m "getLyric" then
        call_method n "getLyric" (arguments ["musicItem"; "source"; "options"] params)
      else if String.eqb m "getAlbum" then
        call_method n "getAlbum"
          (arguments ["albumId"; "page"; "limit"; "source"; "options"] params)
      else if String.eqb m "getArtist" then
        call_method n "getArtist"
          (arguments ["artistId"; "page"; "limit"; "source"; "options"] params)
      else if String.eqb m "getRecommend" then
        call_method n "getRecommend"
          (arguments ["musicItem"; "page"; "limit"; "source"; "options"] params)
      else unknown
  | _ => unknown
  end.

(** The outer [catch], lines 374-382: it has the slip of the runner's. *)
Definition outer_catch (e : value) (st : state) : state :=
  unhandled E (JS.ReferenceError "message is not defined")
    (emit_effect (Stderr "Error processing message:" e) st).

(** Lines 363-373. *)
Definition finish (n : nat) (id : value) (o : outcome) (st : state) : iteration :=
  match o with
  | Fulfilled result => Continue (write (Response n) (response id result VNull) st)
  | Rejected e =>
      match JS.prop "message" e with
      | Normal error => Continue (write (Response n) (response id VUndefined error) st)
      | Abrupt te => Stop (outer_catch te st)
      end
  end.

(** Lines 301-382: the body of the loop for a line that is not blank. *)
Definition handle_line (line : string) (st : state) : iteration :=
  let n := S (messageCount st) in
  let st := emit_effect (Received n line) (set_messageCount n st) in
  match JSON_parse E line with
  | inl detail => Stop (outer_catch (JS.SyntaxError detail) st)
  | inr message =>
      match Runner.destructure message with
      | Abrupt e => Stop (outer_catch e st)
      | Normal (id, method, params) =>
          match dispatch n method params st with
          | (Normal Pending, st') =>
              Stop (set_waiting (waiting st' ++ [Task n id (Runner.method_name method) false]) st')
          | (Normal (Settled o), st') => finish n id o st'
          | (Abrupt e, st') => finish n id (Rejected e) st'
          end
      end
  end.

End WithEnv.
End Variant.

(** ** The inbound message of the specification *)






(** ** Reading a trace *)


(** Effects that neither start nor answer a line nor call a callback:
    log entries, [console.error], what [send] writes, exits. *)
Definition passive (e : effect) : bool :=
  match e with
  | Stdout SendInited _ | Stdout SendAny _ | Log _ _ | Stderr _ _ | PostMessage _
  | Resolved _ _ | Unhandled _ | Exit _ => true
  | _ => false
  end.

(** The effects of a dispatch: the passive ones and the calls of callbacks. *)
Definition internal (e : effect) : bool :=
  passive e || match e with Invoke _ _ => true | _ => false end.

(** [st'] is [st] after further effects, all of them [ok], with the
    listener's variables, the suspended invocations and [alive]
    unchanged. *)
Definition extends (ok : effect -> bool) (st st' : state) : Prop :=
  buffer st' = buffer st
  /\ messageCount st' = messageCount st
  /\ waiting st' = waiting st
  /\ alive st' = alive st
  /\ exists new, trace st' = new ++ trace st /\ forallb ok new = true.

(** A computation whose effects are those of a dispatch. *)
Definition frames {A : Type} (m : M A) : Prop :=
  forall st, extends internal st (m st).2.

(** The two shapes of a response: success, and failure. *)
Definition is_answer (id doc : value) : Prop :=
  (exists result, doc = response id result VNull)
  \/ (exists error, doc = response id VUndefined error).

Definition state_of (it : iteration) : state :=
  match it with
  | Continue st => st
  | Stop st => st
  end.

(** What one pass through the loop body can do with a line, given the
    number [n] it gives to the line: answer it and go on; be suspended
    with the line unanswered; or end by an exception, with no answer. *)
Inductive line_outcome (E : env) (line : string) (st : state) : iteration -> Prop :=
| line_answered (message doc : value) (new : list effect) (st' : state) :
    JSON_parse E line = inr message ->
    JS.nullish message = false ->
    is_answer (JS.prop_opt "id" message) doc ->
    forallb internal new = true ->
    trace st'
    = Stdout (Response (S (messageCount st))) doc
      :: new ++ Received (S (messageCount st)) line :: trace st ->
    buffer st' = buffer st ->
    messageCount st' = S (messageCount st) ->
    waiting st' = waiting st ->
    alive st' = alive st ->
    line_outcome E line st (Continue st')
| line_suspended (message : value) (new : list effect) (st' : state) :
    JSON_parse E line = inr message ->
    JS.nullish message = false ->
    forallb internal new = true ->
    trace st' = new ++ Received (S (messageCount st)) line :: trace st ->
    buffer st' = buffer st ->
    messageCount st' = S (messageCount st) ->
    waiting st'
    = waiting st
      ++ [Task (S (messageCount st)) (JS.prop_opt "id" message)
            (Runner.method_name (JS.prop_opt "method" message)) false] ->
    alive st' = alive st ->
    line_outcome E line st (Stop st')
| line_aborted (new : list effect) (st' : state) :
    forallb internal new = true ->
    trace st' = new ++ Received (S (messageCount st)) line :: trace st ->
    buffer st' = buffer st ->
    messageCount st' = S (messageCount st) ->
    waiting st' = waiting st ->
    line_outcome E line st (Stop st').

(** What the settlement of the promise awaited for line [n] can do, up
    to the return to the loop: answer the line; leave it stalled for good;
    or end by an exception. *)
Inductive resumed (n : nat) (st : state) : iteration -> Prop :=
| resumed_answered (t : task) (doc : value) (new : list effect) (st' : state) :
    t ∈ waiting st ->
    Runner.awaits n t = true ->
    is_answer (t_id t) doc ->
    forallb passive new = true ->
    trace st' = Stdout (Response n) doc :: new ++ trace st ->
    buffer st' = buffer st ->
    messageCount st' = messageCount st ->
    waiting st' = List.filter (fun t => negb (Runner.awaits n t)) (waiting st) ->
    alive st' = alive st ->
    resumed n st (Continue st')
| resumed_stalled (new : list effect) (st' : state) :
    forallb passive new = true ->
    trace st' = new ++ trace st ->
    buffer st' = buffer st ->
    messageCount st' = messageCount st ->
    waiting st' = map (Runner.stall n) (waiting st) ->
    resumed n st (Stop st')
| resumed_aborted (new : list effect) (st' : state) :
    forallb passive new = true ->
    trace st' = new ++ trace st ->
    buffer st' = buffer st ->
    messageCount st' = messageCount st ->
    waiting st' = List.filter (fun t => negb (Runner.awaits n t)) (waiting st) ->
    resumed n st (Stop st').

(** [is_answer] as a test on the document alone. *)
Definition answer_shape (doc : value) : bool :=
  match doc with
  | VObj [(k1, _); (k2, result); (k3, error)] =>
      String.eqb k1 "id" && String.eqb k2 "result" && String.eqb k3 "error"
      && match error, result with
         | VNull, _ | _, VUndefined => true
         | _, _ => false
         end
  | _ => false
  end.

(** The effects of the listener: those of a dispatch, the start of a
    line, and a response of one of the two shapes. *)
Definition listener_effect (e : effect) : bool :=
  internal e
  || match e with
     | Received _ _ => true
     | Stdout (Response _) doc => answer_shape doc
     | _ => false
     end.


Fixpoint newline_free (s : string) : bool :=
  match s with
  | EmptyString => true
  | String c s' => negb (JS.is_newline c) && newline_free s'
  end.




(** The effects of the start-up: passive ones, and its one protocol
    message. *)
Definition startup_effect (e : effect) : bool :=
  passive e
  || match e with
     | Stdout Ready _ | Stdout LoadFailed _ => true
     | _ => false
     end.



(** ** Sample lines and plugins, for the examples *)

Module Samples.

Definition jstr (s : string) : string := JS.quote +:+ s +:+ JS.quote.

(** [{"id":<id>,"method":"<method>","params":{"<key>":"<text>"}}] *)
Definition request_line (id method key text : string) : string :=
  "{" +:+ jstr "id" +:+ ":" +:+ id +:+ "," +:+ jstr "method" +:+ ":" +:+ jstr method
  +:+ "," +:+ jstr "params" +:+ ":{" +:+ jstr key +:+ ":" +:+ jstr text +:+ "}}".

Definition request_message (id : Z) (method key text : string) : value :=
  VObj [("id", VNum id); ("method", VStr method); ("params", VObj [(key, VStr text)])].

Definition newline : string := JS.newline.

(** [JSON.parse] on the sample lines; every other line counts as
    malformed here. *)
Definition sample_parse (line : string) : string + value :=
  if String.eqb line (request_line "1" "search" "keyword" "abc") then
    inr (request_message 1 "search" "keyword" "abc")
  else if String.eqb line (request_line "2" "search" "keyword" "xyz") then
    inr (request_message 2 "search" "keyword" "xyz")
  else if String.eqb line (request_line "3" "getLyric" "musicItem" "song") then
    inr (request_message 3 "getLyric" "musicItem" "song")
  else inl "Unexpected token b in JSON at position 1".

Definition two_items : value :=
  VArr [VObj [("name", VStr "a")]; VObj [("name", VStr "b")]].

Definition keyword_of (descriptor : value) : value :=
  JS.prop_opt "keyword" (JS.prop_opt "info" descriptor).

(** The functions of the sample plugin: 0 returns a list of two items;
    1 returns [null]; 2 returns a promise for keyword [abc] and the list
    otherwise; 3 throws an error; 4 takes itself off the handlers of
    [tick]; 5 registers function 0 on [tick]; the others return
    [undefined]. *)
Definition sample_plugin (k : nat) (arg : value) (s : store) : reaction :=
  match k with
  | 0 => Reaction s [] (Returns two_items)
  | 1 => Reaction s [] (Returns VNull)
  | 2 =>
      match keyword_of arg with
      | VStr "abc" => Reaction s [] Deferred
      | _ => Reaction s [] (Returns two_items)
      end
  | 3 => Reaction s [] (Throws (JS.Error "boom"))
  | 4 => Reaction (Registry.unregister "tick" (Plugin 4) s) [] (Returns VUndefined)
  | 5 => Reaction (Registry.on "tick" (Plugin 0) s) [] (Returns VUndefined)
  | _ => Reaction s [] (Returns VUndefined)
  end.

(** The top level of a plugin that registers the given handlers. *)
Definition register (handlers : list (string * fn)) (s : store) : reaction :=
  Reaction (fold_left (fun s h => Registry.on (fst h) (snd h) s) handlers s) [] (Returns VUndefined).

(** The runner as the main thread of a Node that terminates on an
    unhandled rejection, with a plugin that registers [handlers]. *)
Definition sample_env (handlers : list (string * fn)) : env :=
  Env sample_parse sample_plugin (Normal tt) (register handlers) true false true.


(** The same under a Node that only warns about unhandled rejections. *)
Definition lenient_env (handlers : list (string * fn)) : env :=
  Env sample_parse sample_plugin (Normal tt) (register handlers) true false false.

(** A line that is not JSON. *)
Definition bad_line : string := "{bad".

Definition line1 : string := request_line "1" "search" "keyword" "abc".
Definition line2 : string := request_line "2" "search" "keyword" "xyz".
Definition line3 : string := request_line "3" "getLyric" "musicItem" "song".

(** Plugins whose request handler is function 0, 1 and 2, and one
    without a request handler. *)
Definition list_env : env := sample_env [("request", Plugin 0)].
Definition slow_env : env := sample_env [("request", Plugin 2)].
Definition bare_env : env := sample_env [].

(** A state in which the given handlers are registered. *)
Definition registered (handlers : list (string * fn)) : state :=
  State (r_store (register handlers Runner.initial_store)) [] "" 0 [] true.

End Samples.

(** ** Further readings of a trace and of the registry *)

(** The calls of registered callbacks, with their argument, newest
    first. *)
Definition calls_of (t : list effect) : list (fn * value) :=
  omap (fun e => match e with Invoke f arg => Some (f, arg) | _ => None end) t.

(** The promises resolved by the one-shot closures, newest first. *)
Definition resolved_of (t : list effect) : list (nat * value) :=
  omap (fun e => match e with Resolved n v => Some (n, v) | _ => None end) t.

(** The numbers of the lines answered so far, newest first. *)
Definition answered_lines (t : list effect) : list nat :=
  omap (fun e => match e with Stdout (Response n) _ => Some n | _ => None end) t.





(** [events[event]], or no handler when the property is missing. *)
Definition handlers (event : string) (s : store) : list fn :=
  match events s !! event with
  | Some l => array_at l s
  | None => []
  end.


(** [a] without the first occurrence of [f]. *)
Fixpoint remove_first (f : fn) (a : list fn) : list fn :=
  match a with
  | [] => []
  | g :: a' => if decide (g = f) then a' else g :: remove_first f a'
  end.

(** The elements at the even positions of a list ([keep] is [true]), or
    at the odd ones, counting from 0. *)
Fixpoint every_other {A : Type} (keep : bool) (l : list A) : list A :=
  match l with
  | [] => []
  | x :: l' => if keep then x :: every_other false l' else every_other true l'
  end.




(** ** The HTTP helper: [request], lines 61-146

    [request(url, options, callback)] is what a plugin reaches the network
    with. The model follows one call: the synchronous part, which builds
    the options and starts the request, and the listeners it installs, for
    the chunks and the end of the response, for an error and for the
    timeout. *)

Module Http.

(** The properties of [new URL(url)] that are read. *)
Record url := Url {
  protocol : string;
  hostname : string;
  port : string;
  pathname : string;
  search : string;
}.

(** [require('http')] or [require('https')] *)
Inductive transport := http | https.

Record reqOptions := ReqOptions {
  o_hostname : string;
  o_port : string;
  o_path : string;
  o_method : value;
  o_headers : list (string * value);
}.

(** What a call does, as seen from outside. A log entry keeps the fixed
    part of its text. *)
Inductive event :=
| Logged (l : level) (msg : string)       (* logToFile(level, message) *)
| Requested (t : transport) (o : reqOptions)  (* httpModule.request(reqOptions, ...) *)
| TimeoutSet (msecs : value)              (* req.setTimeout(timeout, ...) *)
| Written (data : value)                  (* req.write(JSON.stringify(data)) *)
| Ended                                   (* req.end() *)
| Destroyed                               (* req.destroy() *)
| Called (k : nat) (err res : value)      (* callback(err, res) *)
| ConsoleError (msg : string) (v : value). (* console.error(msg, v) *)

(** What the helper does not define itself: the [URL] constructor, which
    throws on a string that is not a URL; [httpModule.request] and
    [req.setTimeout], which check their arguments and may throw;
    [JSON.parse]; and what the function object [k], given as callback,
    does when it is called. *)
Record platform := Platform {
  new_URL : value -> completion url;
  start : transport -> reqOptions -> completion unit;
  setTimeout : value -> completion unit;
  parse : string -> string + value;
  apply : nat -> value -> value -> completion unit;
}.

(** One call of [request]: the events so far, newest first, and the
    variable [responseData]. *)
Record exchange := Exchange {
  history : list event;
  responseData : string;
}.

Definition initial : exchange := Exchange [] "".

Definition record (e : event) (x : exchange) : exchange :=
  Exchange (e :: history x) (responseData x).

(** [obj[k] = v] *)
Fixpoint set_field (k : string) (v : value) (fields : list (string * value))
  : list (string * value) :=
  match fields with
  | [] => [(k, v)]
  | (k', v') :: rest =>
      if String.eqb k' k then (k, v) :: rest else (k', v') :: set_field k v rest
  end.

Fixpoint characters (s : string) : list string :=
  match s with
  | EmptyString => []
  | String c s' => String c "" :: characters s'
  end.

(** [{ ...v }]: the own enumerable properties of [v]; none for
    [undefined], [null], a number, a boolean, a function or an error, the
    indices for an array and for a string. *)
Definition spread (v : value) : list (string * value) :=
  match v with
  | VObj fields => fields
  | VArr xs => imap (fun i x => (pretty i, x)) xs
  | VStr s => imap (fun i c => (pretty i, VStr c)) (characters s)
  | _ => []
  end.

(** [const { method = 'GET', timeout = 5000 } = options || {}] *)
Definition method_of (options : value) : value :=
  JS.param_default (VStr "GET") (JS.prop_opt "method" (JS.or_else options (VObj []))).
Definition timeout_of (options : value) : value :=
  JS.param_default (VNum 5000) (JS.prop_opt "timeout" (JS.or_else options (VObj []))).

(** [options?.data ? JSON.stringify(options.data) : null], as the value
    whose JSON text is the body; [None] when [data] is falsy ([null], or
    [undefined] where [JSON.stringify] gives no text). *)
Definition body_of (options : value) : option value :=
  let data := JS.prop_opt "data" options in
  if JS.truthy data && JS.stringify_defined data then Some data else None.

Definition headers_of (options : value) : list (string * value) :=
  let headers := spread (JS.prop_opt "headers" options) in
  match body_of options with
  | Some _ => set_field "Content-Type" (VStr "application/json") headers
  | None => headers
  end.

Definition transport_of (u : url) : transport :=
  if String.eqb (protocol u) "https:" then https else http.

Definition options_of (u : url) (options : value) : reqOptions :=
  ReqOptions (hostname u) (port u) (pathname u +:+ search u) (method_of options)
    (headers_of options).

(** The body of [request], lines 62-145. *)
Definition request (P : platform) (url options : value) (x : exchange)
  : completion unit * exchange :=
  let x := record (Logged DEBUG "[HTTP Request]") x in
  match new_URL P url with
  | Abrupt e => (Abrupt e, x)
  | Normal parsedUrl =>
      let reqOptions := options_of parsedUrl options in
      match start P (transport_of parsedUrl) reqOptions with
      | Abrupt e => (Abrupt e, x)
      | Normal _ =>
          let x := record (Requested (transport_of parsedUrl) reqOptions) x in
          match setTimeout P (timeout_of options) with
          | Abrupt e => (Abrupt e, x)
          | Normal _ =>
              let x := record (TimeoutSet (timeout_of options)) x in
              let x :=
                match body_of options with
                | Some data => record (Written data) x
                | None => x
                end in
              (Normal tt, record Ended x)
          end
      end
  end.

(** [callback(err, res)] *)
Definition call_back (P : platform) (callback err res : value) (x : exchange)
  : completion unit * exchange :=
  match callback with
  | VFun k => (apply P k err res, record (Called k err res) x)
  | _ => (Abrupt (JS.TypeError "callback is not a function"), x)
  end.

(** The listener of the response's [data] event, lines 96-98. *)
Definition on_data (chunk : string) (x : exchange) : exchange :=
  Exchange (history x) (responseData x +:+ chunk).

(** The listener of the response's [end] event, lines 100-117. *)
Definition on_end (P : platform) (callback : value) (x : exchange)
  : completion unit * exchange :=
  let x := record (Logged DEBUG "[HTTP Response]") x in
  let attempt :=
    match parse P (responseData x) with
    | inl detail => (Abrupt (JS.SyntaxError detail), x)
    | inr parsedData =>
        if JS.truthy callback then
          call_back P callback VNull (VObj [("body", parsedData)]) x
        else (Normal tt, x)
    end in
  match attempt with
  | (Normal _, x) => (Normal tt, x)
  | (Abrupt _, x) =>
      let x := record (Logged ERROR "[HTTP Error] Failed to parse JSON response") x in
      if JS.truthy callback then
        call_back P callback (JS.Error ("Invalid JSON response: " +:+ responseData x)) VNull x
      else
        (Normal tt, record (ConsoleError "Invalid JSON response:" (VStr (responseData x))) x)
  end.

(** The listener of the request's [error] event, lines 120-128. *)
Definition on_error (P : platform) (callback error : value) (x : exchange)
  : completion unit * exchange :=
  match JS.prop "message" error with
  | Abrupt te => (Abrupt te, x)
  | Normal _ =>
      let x := record (Logged ERROR "[HTTP Error] Request failed") x in
      if JS.truthy callback then call_back P callback error VNull x
      else (Normal tt, record (ConsoleError "Request error:" error) x)
  end.


(** The response arrives in [chunks] and ends. *)
Definition respond (P : platform) (callback : value) (chunks : list string) (x : exchange)
  : completion unit * exchange :=
  on_end P callback (fold_left (fun x chunk => on_data chunk x) chunks x).

(** The text of a response that arrived in [chunks]. *)
Definition text_of (chunks : list string) : string := foldr String.append "" chunks.

(** The calls of the callback, newest first. *)
Definition called (x : exchange) : list (nat * value * value) :=
  omap (fun e => match e with Called k err res => Some (k, err, res) | _ => None end)
    (history x).

Definition written (x : exchange) : list value :=
  omap (fun e => match e with Written data => Some data | _ => None end) (history x).

Definition requested (x : exchange) : list (transport * reqOptions) :=
  omap (fun e => match e with Requested t o => Some (t, o) | _ => None end) (history x).

(** A platform for the examples: one URL is accepted; the texts [[1,2]]
    and [null] are JSON and any other text is not; every request can be
    started; the callback throws when it is given a result whose [body] is
    [null]. *)
Definition sample_platform : platform :=
  Platform
    (fun url =>
       match url with
       | VStr "https://example.org/search?q=abc" =>
           Normal (Url "https:" "example.org" "" "/search" "?q=abc")
       | _ => Abrupt (JS.TypeError "Invalid URL")
       end)
    (fun _ _ => Normal tt)
    (fun _ => Normal tt)
    (fun text =>
       if String.eqb text "[1,2]" then inr (VArr [VNum 1; VNum 2])
       else if String.eqb text "null" then inr VNull
       else inl "Unexpected token < in JSON at position 0")
    (fun k err res =>
       match err, res with
       | VNull, VObj [(_, VNull)] =>
           Abrupt (JS.TypeError "Cannot read properties of null (reading 'list')")
       | _, _ => Normal tt
       end).

End Http.

(** ** Start-up of the variant, lines 145-189 and 270-415

    The variant reports its progress with [console.log], which writes to
    stdout, the stream of the protocol. *)

Module VariantMain.

(** What the start-up does, in order: a call of [console.log], or one of
    the effects of the runner. *)
Inductive step :=
| ConsoleLog (text : string)    (* console.log(text) *)
| Effect (e : effect).

(** The steps so far, newest first, and the registry. *)
Record progress := Progress {
  steps : list step;
  registry : store;
}.

Definition console_log (text : string) (p : progress) : progress :=
  Progress (ConsoleLog text :: steps p) (registry p).
Definition console_error (msg : string) (v : value) (p : progress) : progress :=
  Progress (Effect (Stderr msg v) :: steps p) (registry p).
Definition does (e : effect) (p : progress) : progress :=
  Progress (Effect e :: steps p) (registry p).

(** The lines on stdout, newest first: a text, or the JSON text of a
    document. *)
Definition stdout (l : list step) : list (string + value) :=
  omap (fun s =>
          match s with
          | ConsoleLog text => Some (inl text)
          | Effect (Stdout _ doc) => Some (inr doc)
          | Effect _ => None
          end) l.

Section WithEnv.

Context (E : env).

(** [script.runInNewContext(...)]: the top level of the plugin, with the
    calls of [send] it makes. *)
Definition runInNewContext (p : progress) : completion unit * progress :=
  let r := plugin_main E (registry p) in
  let st := Registry.sends (Variant.send E) (r_sends r) (State (r_store r) [] "" 0 [] false) in
  let p := Progress (map Effect (trace st) ++ steps p) (r_store r) in
  match r_result r with
  | Throws error => (Abrupt error, p)
  | _ => (Normal tt, p)
  end.

(** [loadPlugin], lines 145-189. (The text of [error.stack] is not
    modelled: it reads as [undefined], as in the runner's [loadPlugin].) *)
Definition loadPlugin (pluginPath : string) (p : progress) : completion bool * progress :=
  let attempt :=
    match readFileSync E with
    | Abrupt error => (Abrupt error, p)
    | Normal _ =>
        let p := console_log ("About to execute plugin: " +:+ pluginPath) p in
        match runInNewContext p with
        | (Abrupt error, p) => (Abrupt error, p)
        | (Normal _, p) =>
            (Normal true, console_log ("Plugin executed successfully: " +:+ pluginPath) p)
        end
    end in
  match attempt with
  | (Normal b, p) => (Normal b, p)
  | (Abrupt error, p) =>
      let p := console_error ("Failed to load plugin " +:+ pluginPath +:+ ":") error p in
      match JS.prop "stack" error with
      | Abrupt te => (Abrupt te, p)
      | Normal stack =>
          let p := console_error "Error stack:" stack p in
          let p :=
            if parentPort E then
              does (PostMessage
                      (VObj [("event", VStr "error");
                             ("data", VObj [("error", JS.prop_opt "message" error);
                                            ("stack", stack)])])) p
            else p in
          (Normal false, p)
      end
  end.

(** The main program, lines 270-415, up to the point where the listener
    is registered and the readiness notification written, or the process
    exits. *)
Definition main (pluginPath : option string) : progress :=
  let p := Progress [] Runner.initial_store in
  if isMainThread E then
    match pluginPath with
    | Some (String c s) =>
        let path := String c s in
        let p := console_log ("Loading plugin: " +:+ path) p in
        match loadPlugin path p with
        | (Normal true, p) =>
            let p := console_log "Plugin loaded successfully" p in
            let p := console_log "Sending initialization response" p in
            does (Stdout Ready initResponse) p
        | (Normal false, p) =>
            let p := console_error "Failed to load plugin" VUndefined p in
            does (Exit 1)
              (does (Stdout LoadFailed (Runner.errorResponse (VStr "Failed to load plugin"))) p)
        | (Abrupt error, p) =>
            let p := console_error "Error loading plugin:" error p in
            does (Exit 1)
              (does (Stdout LoadFailed (Runner.errorResponse (JS.prop_opt "message" error))) p)
        end
    | _ =>
        does (Exit 1)
          (console_error "Usage: node lx_plugin_runner.js <plugin_path>" VUndefined p)
    end
  else p.

End WithEnv.
End VariantMain.

(** ** More sample lines

    A request for a method that does not exist, a [search] request
    without [params], a [getMediaSource] request whose [options] is
    [null]; and a plugin file that cannot be read. *)

Module Cases.

Definition ping_line : string := Samples.request_line "7" "ping" "keyword" "abc".
Definition bare_line : string :=
  "{" +:+ Samples.jstr "id" +:+ ":8," +:+ Samples.jstr "method" +:+ ":"
  +:+ Samples.jstr "search" +:+ "}".
Definition media_line : string :=
  "{" +:+ Samples.jstr "id" +:+ ":9," +:+ Samples.jstr "method" +:+ ":"
  +:+ Samples.jstr "getMediaSource" +:+ "," +:+ Samples.jstr "params" +:+ ":{"
  +:+ Samples.jstr "musicItem" +:+ ":" +:+ Samples.jstr "song" +:+ ","
  +:+ Samples.jstr "options" +:+ ":null}}".

Definition parse (line : string) : string + value :=
  if String.eqb line ping_line then inr (Samples.request_message 7 "ping" "keyword" "abc")
  else if String.eqb line bare_line then inr (VObj [("id", VNum 8); ("method", VStr "search")])
  else if String.eqb line media_line then
    inr (VObj [("id", VNum 9); ("method", VStr "getMediaSource");
               ("params", VObj [("musicItem", VStr "song"); ("options", VNull)])])
  else Samples.sample_parse line.


Definition unreadable_env : env :=
  Env parse Samples.sample_plugin (Abrupt (JS.Error "ENOENT: no such file or directory"))
    (Samples.register []) true false true.

(** A plugin whose top level registers function 0 for [request] and
    sends the [inited] event. *)
Definition announce (s : store) : reaction :=
  Reaction (Registry.on "request" (Plugin 0) s)
    [("inited", VObj [("sources", VArr [])])] (Returns VUndefined).

Definition announcing_env : env :=
  Env parse Samples.sample_plugin (Normal tt) announce true false true.

End Cases.

(** * Properties *)

(** ** The [send] primitive *)

Section Send.

Context (E : env).

Lemma send_shared (event : string) (data : value) (st : state) :
  shared (Registry.send E event data st).2 = shared st.
Proof.
  unfold Registry.send.
  destruct (parentPort E); [reflexivity|].
  destruct (String.eqb event "inited"); [reflexivity|].
  destruct (JS.stringify_substring data); reflexivity.
Qed.


End Send.



(** ** The variant's missing methods *)

Section VariantMethods.

Context (E : env).

Lemma arguments_abrupt_or_normal (names : list string) (params : value) (st : state) :
  (exists detail, Variant.arguments names params st = (Abrupt (JS.TypeError detail), st))
  \/ (exists values, Variant.arguments names params st = (Normal values, st)).
Proof.
  destruct (JS.nullish params) eqn:Hnull.
  - destruct names as [|name names].
    + right. eexists. reflexivity.
    + left. destruct params; try discriminate; eexists; reflexivity.
  - right. induction names as [|name names [values IH]].
    + eexists. reflexivity.
    + exists (JS.prop_opt name params :: values).
      simpl. unfold bind, lift at 1.
      assert (JS.prop name params = Normal (JS.prop_opt name params)) as ->.
      { unfold JS.prop_opt. destruct params; try discriminate; reflexivity. }
      simpl in IH. rewrite IH. reflexivity.
Qed.

Lemma call_missing_method (n : nat) (name : string) (names : list string)
    (params : value) (st : state) :
  Variant.runner_method E n name = None ->
  exists detail,
    Variant.call_method E n name (Variant.arguments names params) st
    = (Abrupt (JS.TypeError detail), st).
Proof.
  intros Hnone. unfold Variant.call_method, bind.
  destruct (arguments_abrupt_or_normal names params st) as [[d ->]|[vs ->]].
  - eexists. reflexivity.
  - rewrite Hnone. eexists. reflexivity.
Qed.

(** C10. In the variant, a request that parses, is not [null] and names
    [getLyric], [getAlbum], [getArtist] or [getRecommend] is answered by
    an error response: [result] is left [undefined] and [error] is the
    message of the TypeError the call throws. *)
Theorem variant_missing_methods (line : string) (message : value) (m : string)
    (st : state) :
  JSON_parse E line = inr message ->
  JS.nullish message = false ->
  JS.prop_opt "method" message = VStr m ->
  m ∈ ["getLyric"; "getAlbum"; "getArtist"; "getRecommend"] ->
  exists detail st',
    Variant.handle_line E line st = Continue st'
    /\ trace st'
       = Stdout (Response (S (messageCount st)))
           (response (JS.prop_opt "id" message) VUndefined (VStr detail))
         :: Received (S (messageCount st)) line :: trace st
    /\ shared st' = shared st
    /\ waiting st' = waiting st.
Proof.
  intros Hparse Hnull Hmethod Hm.
  unfold Variant.handle_line. rewrite Hparse.
  unfold Runner.destructure. rewrite Hnull, Hmethod.
  set (st1 := emit_effect _ _).
  set (n := S (messageCount st)).
  assert (exists detail,
             Variant.dispatch E n (VStr m) (JS.prop_opt "params" message) st1
             = (Abrupt (JS.TypeError detail), st1)) as [detail ->].
  { repeat (apply elem_of_cons in Hm as [->|Hm]);
      [| | | |by apply elem_of_nil in Hm];
      cbn [Variant.dispatch String.eqb Ascii.eqb Bool.eqb];
      apply call_missing_method; reflexivity. }
  exists detail. eexists. simpl. split; [reflexivity|].
  subst st1. simpl. auto.
Qed.

End VariantMethods.

Lemma variant_missing_methods_witness :
  exists detail st',
    Variant.handle_line Samples.bare_env Samples.line3 (Samples.registered [])
    = Continue st'
    /\ trace st'
       = [Stdout (Response 1) (response (VNum 3) VUndefined (VStr detail));
          Received 1 Samples.line3]
    /\ shared st' = shared (Samples.registered [])
    /\ waiting st' = [].
Proof.
  apply (variant_missing_methods Samples.bare_env Samples.line3
           (Samples.request_message 3 "getLyric" "musicItem" "song") "getLyric"
           (Samples.registered [])).
  - reflexivity.
  - reflexivity.
  - reflexivity.
  - set_solver.
Defined.

(** ** The event registry *)

Lemma extends_refl (ok : effect -> bool) (st : state) : extends ok st st.
Proof. repeat split; exists []; split; reflexivity. Qed.

Lemma extends_trans (ok : effect -> bool) (st1 st2 st3 : state) :
  extends ok st1 st2 -> extends ok st2 st3 -> extends ok st1 st3.
Proof.
  intros (Hb1 & Hm1 & Hw1 & Ha1 & new1 & Ht1 & Hok1)
         (Hb2 & Hm2 & Hw2 & Ha2 & new2 & Ht2 & Hok2).
  repeat split; try congruence.
  exists (new2 ++ new1). split.
  - rewrite Ht2, Ht1. apply app_assoc.
  - rewrite forallb_app, Hok1, Hok2. reflexivity.
Qed.

Lemma extends_effect (ok : effect -> bool) (e : effect) (st : state) :
  ok e = true -> extends ok st (emit_effect e st).
Proof.
  intros Hok. repeat split. exists [e]. split; [reflexivity|].
  simpl. rewrite Hok. reflexivity.
Qed.

Lemma extends_weaken (ok ok' : effect -> bool) (st st' : state) :
  (forall e, ok e = true -> ok' e = true) -> extends ok st st' -> extends ok' st st'.
Proof.
  intros Himp (Hb & Hm & Hw & Ha & new & Ht & Hok).
  repeat split; try assumption. exists new. split; [assumption|].
  apply forallb_forall. intros e He.
  apply Himp. revert e He. apply forallb_forall. assumption.
Qed.

Lemma passive_internal (e : effect) : passive e = true -> internal e = true.
Proof. unfold internal. intros ->. reflexivity. Qed.


Section Emit.

Context (E : env).

Lemma send_extends (event : string) (data : value) (st : state) :
  extends passive st (Registry.send E event data st).2.
Proof.
  unfold Registry.send.
  destruct (parentPort E); [by apply extends_effect|].
  destruct (String.eqb event "inited"); [by apply extends_effect|].
  destruct (JS.stringify_substring data); [by apply extends_effect|apply extends_refl].
Qed.

Lemma sends_extends (l : list (string * value)) (st : state) :
  extends passive st (Registry.sends (Registry.send E) l st).
Proof.
  unfold Registry.sends. revert st.
  induction l as [|[event data] l IH]; intros st; [apply extends_refl|].
  simpl. eapply extends_trans; [apply send_extends|apply IH].
Qed.

Lemma sends_shared (l : list (string * value)) (st : state) :
  shared (Registry.sends (Registry.send E) l st) = shared st.
Proof.
  unfold Registry.sends. revert st.
  induction l as [|[event data] l IH]; intros st; [reflexivity|].
  simpl. rewrite IH. apply send_shared.
Qed.

(** A call records itself and then adds passive effects only. *)
Lemma call_extends (f : fn) (arg : value) (st : state) :
  extends passive (emit_effect (Invoke f arg) st) (Runner.call E f arg st).2.
Proof.
  unfold Runner.call, Registry.call. destruct f as [k|event n]; simpl.
  - pose proof (sends_extends (r_sends (plugin E k arg (shared st)))
                  (set_shared (r_store (plugin E k arg (shared st)))
                     (emit_effect (Invoke (Plugin k) arg) st))) as H.
    exact H.
  - repeat split. eexists [_]. split; reflexivity.
Qed.








End Emit.


(** The handler registered during that emission is in the list afterwards
    and was not called. *)
Example emit_does_not_call_new_handler :
  let st := Runner.emit (Samples.sample_env []) "tick" VNull
              (Samples.registered [("tick", Plugin 5); ("tick", Plugin 0)]) in
  array_at 0 (shared st) = [Plugin 5; Plugin 0; Plugin 0]
  /\ rev (invoked_of (trace st)) = [Plugin 5; Plugin 0].
Proof. split; reflexivity. Qed.




(** With the sample plugin, whose second handler throws: the three are
    called in order and the exception is reported. *)
Example emit_isolates_throwing_handler :
  rev (trace (Runner.emit (Samples.sample_env []) "tick" VNull
                (Samples.registered [("tick", Plugin 0); ("tick", Plugin 3); ("tick", Plugin 5)])))
  = [Invoke (Plugin 0) VNull;
     Invoke (Plugin 3) VNull;
     Stderr "Event callback error for tick:" (JS.Error "boom");
     Invoke (Plugin 5) VNull].
Proof. reflexivity. Qed.

(** ** The dispatcher keeps to itself

    Whatever the plugin does, a dispatch leaves the listener's variables
    and the suspended invocations alone, and adds to the trace only log
    entries, what [send] writes and calls of callbacks: never a response. *)

Lemma frames_ret {A : Type} (a : A) : frames (ret a).
Proof. intros st. apply extends_refl. Qed.

Lemma frames_throw {A : Type} (e : value) : frames (throw (A := A) e).
Proof. intros st. apply extends_refl. Qed.

Lemma frames_lift {A : Type} (c : completion A) : frames (lift c).
Proof. intros st. apply extends_refl. Qed.

Lemma frames_log (l : level) (msg : string) : frames (log l msg).
Proof. intros st. by apply extends_effect. Qed.

Lemma frames_bind {A B : Type} (m : M A) (k : A -> M B) :
  frames m -> (forall a, frames (k a)) -> frames (bind m k).
Proof.
  intros Hm Hk st. unfold bind. specialize (Hm st).
  destruct (m st) as [[a|e] st']; simpl in *; [|exact Hm].
  eapply extends_trans; [exact Hm|apply Hk].
Qed.

Lemma frames_try_catch {A : Type} (m : M A) (handler : value -> M A) :
  frames m -> (forall e, frames (handler e)) -> frames (try_catch m handler).
Proof.
  intros Hm Hh st. unfold try_catch. specialize (Hm st).
  destruct (m st) as [[a|e] st']; simpl in *; [exact Hm|].
  eapply extends_trans; [exact Hm|apply Hh].
Qed.

Lemma frames_normal {A : Type} (g : state -> A * state) :
  (forall st, extends internal st (g st).2) ->
  frames (fun st => let '(p, st') := g st in (Normal p, st')).
Proof. intros Hg st. specialize (Hg st). destruct (g st) as [p st']. exact Hg. Qed.

Lemma extends_log (l : level) (msg : string) (st : state) :
  extends internal st (logToFile l msg st).
Proof. by apply extends_effect. Qed.

Section Dispatcher.

Context (E : env).

Lemma call_internal (f : fn) (arg : value) (st : state) :
  extends internal st (Runner.call E f arg st).2.
Proof.
  eapply extends_trans; [apply (extends_effect internal (Invoke f arg)); reflexivity|].
  eapply extends_weaken; [apply passive_internal|apply call_extends].
Qed.

Lemma frames_executor (action : string) (source info : value) :
  frames (Runner.executor E action source info).
Proof.
  unfold Runner.executor. apply frames_try_catch.
  - intros st. destruct (Runner.request_handler (shared st)) as [handler|]; simpl.
    + pose proof (call_internal handler (Runner.descriptor action source info) st) as H.
      destruct (Runner.call E handler (Runner.descriptor action source info) st)
        as [[v|e|] st']; simpl in *; try exact H.
      eapply extends_trans; [exact H|apply extends_log].
    + apply extends_log.
  - intros e. apply frames_bind; [apply frames_lift|intros _].
    apply frames_bind; [apply frames_log|intros _]. apply frames_ret.
Qed.

Lemma frames_handleExternalRequest (action : string) (source info : value) :
  frames (Runner.handleExternalRequest E action source info).
Proof.
  unfold Runner.handleExternalRequest.
  apply frames_bind; [apply frames_lift|intros _].
  apply frames_bind; [apply frames_log|intros _].
  intros st. unfold Runner.new_Promise.
  pose proof (frames_executor action source info st) as H.
  destruct (Runner.executor E action source info st) as [[p|e] st']; exact H.
Qed.

Lemma resume_method_extends (label : string) (o : outcome) (st : state) :
  extends internal st (Runner.resume_method label o st).2.
Proof.
  unfold Runner.resume_method. destruct o as [v|e]; simpl; [apply extends_log|].
  destruct (JS.prop "message" e); simpl; [apply extends_log|apply extends_refl].
Qed.

Lemma async_method_extends (label : string) (request : M promise_state) (st : state) :
  frames request -> extends internal st (Runner.async_method label request st).2.
Proof.
  intros Hreq. unfold Runner.async_method.
  assert (frames (run Runner.require_lx label; request)) as H.
  { apply frames_bind; [|intros _; exact Hreq].
    intros st0. unfold Runner.require_lx.
    destruct (lx_available (shared st0)); [apply extends_refl|apply extends_log]. }
  specialize (H st).
  destruct ((run Runner.require_lx label; request) st) as [[[o|]|e] st']; simpl in H.
  - pose proof (resume_method_extends label o st') as H'.
    destruct (Runner.resume_method label o st') as [o' st'']. simpl in *.
    eapply extends_trans; eassumption.
  - exact H.
  - pose proof (resume_method_extends label (Rejected e) st') as H'.
    destruct (Runner.resume_method label (Rejected e) st') as [o' st'']. simpl in *.
    eapply extends_trans; eassumption.
Qed.

Lemma frames_dispatch (method params : value) :
  frames (Runner.dispatch E method params).
Proof.
  unfold Runner.dispatch.
  destruct method as [| | | |m| | | |]; try apply frames_throw.
  repeat (match goal with
          | |- frames (if ?b then _ else _) => destruct b
          | |- frames (bind (lift _) _) => apply frames_bind; [apply frames_lift|intros ?]
          end);
    try apply frames_throw;
    apply frames_normal; intros st;
    unfold Runner.search, Runner.getMediaSource, Runner.getLyric, Runner.getAlbum,
      Runner.getArtist, Runner.getRecommend;
    (eapply extends_trans; [apply extends_log|]);
    apply async_method_extends;
    repeat (match goal with
            | |- frames (bind (lift _) _) => apply frames_bind; [apply frames_lift|intros ?]
            end);
    apply frames_handleExternalRequest.
Qed.

End Dispatcher.

(** ** The listener, one step at a time *)

Section Listener.

Context (E : env).

Lemma unhandled_trace (e : value) (st : state) :
  exists new,
    trace (unhandled E e st) = new ++ trace st /\ forallb passive new = true
    /\ buffer (unhandled E e st) = buffer st
    /\ messageCount (unhandled E e st) = messageCount st
    /\ waiting (unhandled E e st) = waiting st.
Proof.
  unfold unhandled. destruct (unhandled_rejections_throw E).
  - exists [Exit 1; Unhandled e]. repeat split.
  - exists [Unhandled e]. repeat split.
Qed.

Lemma outer_catch_trace (e : value) (st : state) :
  exists new,
    trace (Runner.outer_catch E e st) = new ++ trace st /\ forallb passive new = true
    /\ buffer (Runner.outer_catch E e st) = buffer st
    /\ messageCount (Runner.outer_catch E e st) = messageCount st
    /\ waiting (Runner.outer_catch E e st) = waiting st.
Proof.
  unfold Runner.outer_catch. destruct (JS.prop "message" e).
  - destruct (unhandled_trace (JS.ReferenceError "message is not defined")
                (logError "[Main] Error processing message" st))
      as (new & Ht & Hp & Hb & Hm & Hw).
    exists (new ++ [Log ERROR "[Main] Error processing message"]).
    rewrite Ht, Hb, Hm, Hw. repeat split.
    + simpl. rewrite <- app_assoc. reflexivity.
    + rewrite forallb_app, Hp. reflexivity.
  - apply unhandled_trace.
Qed.

(** The end of a line, from a state that extends the one in which the
    line was received. *)
Lemma finish_cases (n : nat) (id : value) (o : outcome) (st : state) :
  (exists doc new st',
      Runner.finish E n id o st = Continue st'
      /\ is_answer id doc
      /\ forallb passive new = true
      /\ trace st' = Stdout (Response n) doc :: new ++ trace st
      /\ buffer st' = buffer st /\ messageCount st' = messageCount st
      /\ waiting st' = waiting st /\ alive st' = alive st)
  \/ (exists new st',
         Runner.finish E n id o st = Stop st'
         /\ forallb passive new = true
         /\ trace st' = new ++ trace st
         /\ buffer st' = buffer st /\ messageCount st' = messageCount st
         /\ waiting st' = waiting st).
Proof.
  unfold Runner.finish. destruct o as [result|e].
  - left.
    eexists _, [Log DEBUG "[Main] Sending response"; Log INFO "[Main] Method completed"], _.
    split; [reflexivity|].
    split; [left; eexists; reflexivity|]. repeat split.
  - destruct (JS.prop "message" e) as [error|te].
    + left.
      eexists _, [Log DEBUG "[Main] Sending response"; Log ERROR "[Main] Method failed"], _.
      split; [reflexivity|].
      split; [right; eexists; reflexivity|]. repeat split.
    + right. destruct (outer_catch_trace te st) as (new & Ht & Hp & Hb & Hm & Hw).
      eexists new, _. split; [reflexivity|]. auto.
Qed.

Lemma forallb_passive_internal (new : list effect) :
  forallb passive new = true -> forallb internal new = true.
Proof.
  rewrite !forallb_forall. intros H e He. apply passive_internal. by apply H.
Qed.

Lemma handle_line_outcome (line : string) (st : state) :
  line_outcome E line st (Runner.handle_line E line st).
Proof.
  unfold Runner.handle_line.
  set (n := S (messageCount st)).
  set (st1 := logDebug _ _).
  assert (trace st1 = [Log DEBUG "[Main] Received message"] ++ Received n line :: trace st)
    as Ht1 by reflexivity.
  destruct (JSON_parse E line) as [detail|message] eqn:Hparse.
  { destruct (outer_catch_trace (JS.SyntaxError detail) st1) as (new & Ht & Hp & Hb & Hm & Hw).
    eapply (line_aborted _ _ _ (new ++ [Log DEBUG "[Main] Received message"])); [| |exact Hb|exact Hm|exact Hw].
    - rewrite forallb_app, (forallb_passive_internal _ Hp). reflexivity.
    - rewrite Ht, Ht1, <- app_assoc. reflexivity. }
  unfold Runner.destructure.
  destruct (JS.nullish message) eqn:Hnull.
  { match goal with |- context [Runner.outer_catch E ?e st1] =>
      destruct (outer_catch_trace e st1) as (new & Ht & Hp & Hb & Hm & Hw) end.
    eapply (line_aborted _ _ _ (new ++ [Log DEBUG "[Main] Received message"])); [| |exact Hb|exact Hm|exact Hw].
    - rewrite forallb_app, (forallb_passive_internal _ Hp). reflexivity.
    - rewrite Ht, Ht1, <- app_assoc. reflexivity. }
  set (id := JS.prop_opt "id" message).
  set (method := JS.prop_opt "method" message).
  set (st2 := logInfo _ st1).
  pose proof (frames_dispatch E method (JS.prop_opt "params" message) st2)
    as (Hb & Hm & Hw & Ha & new & Ht & Hnew).
  assert (buffer st2 = buffer st) as Hb2 by reflexivity.
  assert (messageCount st2 = S (messageCount st)) as Hm2 by reflexivity.
  assert (waiting st2 = waiting st) as Hw2 by reflexivity.
  assert (alive st2 = alive st) as Ha2 by reflexivity.
  assert (trace st2
          = [Log INFO "[Main] Processing method"; Log DEBUG "[Main] Received message"]
            ++ Received (S (messageCount st)) line :: trace st) as Ht2 by reflexivity.
  clearbody st2.
  assert (forall o st3,
             extends internal st2 st3 ->
             line_outcome E line st (Runner.finish E n id o st3)) as Hfinish.
  { intros o st3 (Hb3 & Hm3 & Hw3 & Ha3 & new3 & Ht3 & Hnew3).
    destruct (finish_cases n id o st3)
      as [(doc & newf & st' & -> & Hdoc & Hpf & Htf & Hbf & Hmf & Hwf & Haf)
         |(newf & st' & -> & Hpf & Htf & Hbf & Hmf & Hwf)].
    - eapply (line_answered _ _ _ message doc (newf ++ new3 ++ [Log INFO "[Main] Processing method"; Log DEBUG "[Main] Received message"]));
        [exact Hparse|exact Hnull|exact Hdoc| | |congruence|congruence|congruence|congruence].
      + rewrite !forallb_app, (forallb_passive_internal _ Hpf), Hnew3. reflexivity.
      + rewrite Htf, Ht3, Ht2. rewrite <- !app_assoc. reflexivity.
    - eapply (line_aborted _ _ _ (newf ++ new3 ++ [Log INFO "[Main] Processing method"; Log DEBUG "[Main] Received message"])); [| |congruence|congruence|congruence].
      + rewrite !forallb_app, (forallb_passive_internal _ Hpf), Hnew3. reflexivity.
      + rewrite Htf, Ht3, Ht2. rewrite <- !app_assoc. reflexivity. }
  destruct (Runner.dispatch E method (JS.prop_opt "params" message) st2)
    as [[[o|]|e] st3]; simpl in Hb, Hm, Hw, Ha, Ht.
  - apply Hfinish. repeat split; eauto.
  - eapply (line_suspended _ _ _ message (new ++ [Log INFO "[Main] Processing method"; Log DEBUG "[Main] Received message"])); [exact Hparse|exact Hnull|..].
    + rewrite forallb_app, Hnew. reflexivity.
    + simpl. rewrite Ht, Ht2, <- app_assoc. reflexivity.
    + simpl. congruence.
    + simpl. congruence.
    + simpl. rewrite Hw, Hw2. reflexivity.
    + simpl. congruence.
  - apply Hfinish. repeat split; eauto.
Qed.

Lemma then_catch_trace (action : string) (o : outcome) (st : state) :
  exists new,
    trace (Runner.then_catch E action o st).2 = new ++ trace st
    /\ forallb passive new = true
    /\ buffer (Runner.then_catch E action o st).2 = buffer st
    /\ messageCount (Runner.then_catch E action o st).2 = messageCount st
    /\ waiting (Runner.then_catch E action o st).2 = waiting st
    /\ (forall o', (Runner.then_catch E action o st).1 = Settled o' ->
         alive (Runner.then_catch E action o st).2 = alive st).
Proof.
  assert (forall error st0,
             exists new,
               trace (Runner.on_rejected E action error st0).2 = new ++ trace st0
               /\ forallb passive new = true
               /\ buffer (Runner.on_rejected E action error st0).2 = buffer st0
               /\ messageCount (Runner.on_rejected E action error st0).2 = messageCount st0
               /\ waiting (Runner.on_rejected E action error st0).2 = waiting st0
               /\ (forall o', (Runner.on_rejected E action error st0).1 = Settled o' ->
                    alive (Runner.on_rejected E action error st0).2 = alive st0)) as Hrej.
  { intros error st0. unfold Runner.on_rejected.
    destruct (JS.prop "message" error) as [m|te]; simpl.
    - exists [Log ERROR ("[Request] Failed: " +:+ action)]. repeat split.
    - destruct (unhandled_trace te st0) as (new & Ht & Hp & Hb & Hm & Hw).
      exists new. repeat split; try assumption. discriminate. }
  unfold Runner.then_catch. destruct o as [result|error]; [|apply Hrej].
  destruct (JS.stringify_substring result); simpl.
  - exists [Log DEBUG "[Request] Result"; Log INFO ("[Request] Success: " +:+ action)].
    repeat split.
  - destruct (Hrej e (logInfo ("[Request] Success: " +:+ action) st))
      as (new & Ht & Hp & Hb & Hm & Hw & Ha).
    exists (new ++ [Log INFO ("[Request] Success: " +:+ action)]).
    rewrite Ht, Hb, Hm, Hw. repeat split.
    + simpl. rewrite <- app_assoc. reflexivity.
    + rewrite forallb_app, Hp. reflexivity.
    + intros o' Ho'. rewrite (Ha o' Ho'). reflexivity.
Qed.

Lemma resume_method_passive (label : string) (o : outcome) (st : state) :
  extends passive st (Runner.resume_method label o st).2.
Proof.
  unfold Runner.resume_method. destruct o as [v|e]; simpl; [by apply extends_effect|].
  destruct (JS.prop "message" e); simpl; [by apply extends_effect|apply extends_refl].
Qed.

(** A settlement does nothing, or resumes the invocation suspended at
    that line, which then goes back to the loop unless it ended. *)
Lemma on_settle_cases (n : nat) (o : outcome) (st : state) :
  Runner.on_settle E n o st = st
  \/ exists it,
      resumed n st it
      /\ alive st = true
      /\ Runner.on_settle E n o st
         = match it with
           | Continue st' => Runner.drain E "" (buffer st') st'
           | Stop st' => st'
           end.
Proof.
  unfold Runner.on_settle.
  destruct (alive st) eqn:Halive; [|by left].
  destruct (List.find (Runner.awaits n) (waiting st)) as [t|] eqn:Hfind; [|by left].
  apply find_some in Hfind as [Hin Hawaits]. apply list_elem_of_In in Hin.
  right.
  destruct (then_catch_trace (Runner.action_of (t_method t)) o st)
    as (new1 & Ht1 & Hp1 & Hb1 & Hm1 & Hw1 & Ha1).
  destruct (Runner.then_catch E (Runner.action_of (t_method t)) o st) as [[o1|] st1];
    simpl in Ht1, Hb1, Hm1, Hw1, Ha1.
  - specialize (Ha1 o1 eq_refl).
    set (st1' := set_waiting _ st1).
    destruct (resume_method_passive (Runner.label_of (t_method t)) o1 st1')
      as (Hb2 & Hm2 & Hw2 & Ha2 & new2 & Ht2 & Hp2).
    destruct (Runner.resume_method (Runner.label_of (t_method t)) o1 st1') as [o2 st2].
    simpl in Hb2, Hm2, Hw2, Ha2, Ht2.
    destruct (finish_cases n (t_id t) o2 st2)
      as [(doc & newf & st' & -> & Hdoc & Hpf & Htf & Hbf & Hmf & Hwf & Haf)
         |(newf & st' & -> & Hpf & Htf & Hbf & Hmf & Hwf)].
    + exists (Continue st'). split; [|split; reflexivity].
      eapply (resumed_answered _ _ t doc (newf ++ new2 ++ new1)); try eassumption.
      * rewrite !forallb_app, Hpf, Hp2, Hp1. reflexivity.
      * rewrite Htf, Ht2. subst st1'. simpl. rewrite Ht1, <- !app_assoc. reflexivity.
      * rewrite Hbf, Hb2. subst st1'. simpl. exact Hb1.
      * rewrite Hmf, Hm2. subst st1'. simpl. exact Hm1.
      * rewrite Hwf, Hw2. subst st1'. simpl. rewrite Hw1. reflexivity.
      * rewrite Haf, Ha2. subst st1'. simpl. exact Ha1.
    + exists (Stop st'). split; [|split; reflexivity].
      eapply (resumed_aborted _ _ (newf ++ new2 ++ new1)).
      * rewrite !forallb_app, Hpf, Hp2, Hp1. reflexivity.
      * rewrite Htf, Ht2. subst st1'. simpl. rewrite Ht1, <- !app_assoc. reflexivity.
      * rewrite Hbf, Hb2. subst st1'. simpl. exact Hb1.
      * rewrite Hmf, Hm2. subst st1'. simpl. exact Hm1.
      * rewrite Hwf, Hw2. subst st1'. simpl. rewrite Hw1. reflexivity.
  - eexists (Stop _). split; [|split; reflexivity].
    eapply (resumed_stalled _ _ new1); simpl; try assumption.
    rewrite Hw1. reflexivity.
Qed.

(** An invariant of the loop: [P] holds between two lines, [Q] when the
    invocation of the listener ends. *)
Lemma drain_invariant (P Q : state -> Prop) :
  (forall b st, P st -> P (set_buffer b st)) ->
  (forall st, P st -> Q st) ->
  (forall line st it,
      P st -> line_outcome E line st it ->
      match it with
      | Continue st' => P st'
      | Stop st' => Q st'
      end) ->
  forall buf acc st, P st -> Q (Runner.drain E acc buf st).
Proof.
  intros Hbuf HPQ Hline buf.
  induction buf as [|c buf IH]; intros acc st HP; simpl.
  - apply HPQ, Hbuf, HP.
  - destruct (JS.is_newline c); [|by apply IH].
    destruct (JS.blank acc); [by apply IH, Hbuf|].
    pose proof (Hline acc _ _ (Hbuf buf _ HP) (handle_line_outcome acc (set_buffer buf st)))
      as H.
    destruct (Runner.handle_line E acc (set_buffer buf st)) as [st'|st'];
      [by apply IH|exact H].
Qed.

(** An invariant of the process: it holds after every input when each
    line handled and each resumption keeps it. *)
Lemma run_invariant (P : state -> Prop) :
  (forall b st, P st -> P (set_buffer b st)) ->
  (forall line st it, P st -> line_outcome E line st it -> P (state_of it)) ->
  (forall n st it, P st -> resumed n st it -> P (state_of it)) ->
  forall inputs st, P st -> P (Runner.run_inputs E st inputs).
Proof.
  intros Hbuf Hline Hres inputs.
  assert (forall buf acc st, P st -> P (Runner.drain E acc buf st)) as Hdrain.
  { apply drain_invariant; [exact Hbuf|auto|].
    intros line st it HP Hout. specialize (Hline line st it HP Hout).
    destruct it; exact Hline. }
  induction inputs as [|i inputs IH]; intros st HP; [exact HP|].
  simpl. apply IH. destruct i as [chunk|n o]; simpl.
  - unfold Runner.on_data. destruct (alive st); [by apply Hdrain|exact HP].
  - destruct (on_settle_cases n o st) as [->|(it & Hit & _ & ->)]; [exact HP|].
    specialize (Hres n st it HP Hit). destruct it; [by apply Hdrain|exact Hres].
Qed.

End Listener.

(** ** Start-up and runs *)

Lemma is_answer_shape (id doc : value) : is_answer id doc -> answer_shape doc = true.
Proof. intros [[result ->]|[error ->]]; simpl; [reflexivity|by destruct error]. Qed.


Lemma internal_listener_effect (new : list effect) :
  forallb internal new = true -> forallb listener_effect new = true.
Proof.
  rewrite !forallb_forall. intros H e He. unfold listener_effect.
  rewrite (H e He). reflexivity.
Qed.

Lemma forallb_elem (ok : effect -> bool) (l : list effect) (e : effect) :
  forallb ok l = true -> e ∈ l -> ok e = true.
Proof.
  intros Hall He. apply list_elem_of_In in He.
  revert e He. by apply forallb_forall.
Qed.

Lemma passive_startup (l : list effect) :
  forallb passive l = true -> forallb startup_effect l = true.
Proof.
  rewrite !forallb_forall. intros H e He. unfold startup_effect.
  by rewrite (H e He).
Qed.

Section Runs.

Context (E : env).

(** Every input adds effects of the listener only. *)
Lemma run_trace (inputs : list Runner.input) (st : state) :
  exists later,
    trace (Runner.run_inputs E st inputs) = later ++ trace st
    /\ forallb listener_effect later = true.
Proof.
  apply (run_invariant E
           (fun st' => exists later,
                trace st' = later ++ trace st /\ forallb listener_effect later = true)).
  - intros b st' H. exact H.
  - intros line st1 it (later & Hl & Hok) Hout.
    destruct Hout as [message doc new st' _ _ Hdoc Hnew Ht _ _ _ _
                     |message new st' _ _ Hnew Ht _ _ _ _
                     |new st' Hnew Ht _ _ _]; simpl.
    + exists ((Stdout (Response (S (messageCount st1))) doc
               :: new ++ [Received (S (messageCount st1)) line]) ++ later).
      split; [rewrite Ht, Hl; simpl; rewrite <- !app_assoc; reflexivity|].
      rewrite forallb_app, Hok. simpl. unfold listener_effect at 1. simpl.
      rewrite (is_answer_shape _ _ Hdoc).
      rewrite forallb_app, (internal_listener_effect _ Hnew). reflexivity.
    + exists ((new ++ [Received (S (messageCount st1)) line]) ++ later).
      split; [rewrite Ht, Hl; rewrite <- !app_assoc; reflexivity|].
      rewrite !forallb_app, Hok, (internal_listener_effect _ Hnew). reflexivity.
    + exists ((new ++ [Received (S (messageCount st1)) line]) ++ later).
      split; [rewrite Ht, Hl; rewrite <- !app_assoc; reflexivity|].
      rewrite !forallb_app, Hok, (internal_listener_effect _ Hnew). reflexivity.
  - intros n st1 it (later & Hl & Hok) Hres.
    destruct Hres as [t doc new st' _ _ Hdoc Hnew Ht _ _ _ _
                     |new st' Hnew Ht _ _ _
                     |new st' Hnew Ht _ _ _]; simpl.
    + exists ((Stdout (Response n) doc :: new) ++ later).
      split; [rewrite Ht, Hl; simpl; rewrite <- !app_assoc; reflexivity|].
      rewrite forallb_app, Hok. simpl. unfold listener_effect at 1. simpl.
      rewrite (is_answer_shape _ _ Hdoc).
      rewrite (internal_listener_effect _ (forallb_passive_internal _ Hnew)). reflexivity.
    + exists (new ++ later).
      split; [rewrite Ht, Hl; rewrite <- !app_assoc; reflexivity|].
      rewrite !forallb_app, Hok,
        (internal_listener_effect _ (forallb_passive_internal _ Hnew)). reflexivity.
    + exists (new ++ later).
      split; [rewrite Ht, Hl; rewrite <- !app_assoc; reflexivity|].
      rewrite !forallb_app, Hok,
        (internal_listener_effect _ (forallb_passive_internal _ Hnew)). reflexivity.
  - exists []. split; reflexivity.
Qed.

(** Loading adds passive effects only: log entries and what the plugin
    sends. *)
Lemma loadPlugin_extends (st : state) :
  extends passive st (Runner.loadPlugin E st).2.
Proof.
  unfold Runner.loadPlugin, bind, log, act, try_catch. cbn [fst snd].
  set (st1 := logToFile INFO "[Load Plugin] Starting to load plugin" st).
  assert (extends passive st st1) as H1 by by apply extends_effect.
  assert (extends passive st1 (Runner.load E st1).2) as H2.
  { unfold Runner.load, bind, log, act, lift, ret.
    destruct (readFileSync E) as [[]|e]; cbn [fst snd]; [|apply extends_refl].
    set (st2 := logToFile DEBUG "[Load Plugin] About to execute plugin in VM context" _).
    assert (extends passive st1 st2) as H12.
    { apply (extends_trans _ _ (logToFile DEBUG "[Load Plugin] Plugin code size" st1));
        by apply extends_effect. }
    pose proof (sends_extends E (r_sends (plugin_main E (shared st2)))
                  (set_shared (r_store (plugin_main E (shared st2))) st2)) as Hs.
    unfold Runner.send.
    destruct (r_result (plugin_main E (shared st2))); cbn [fst snd].
    - eapply extends_trans; [exact H12|].
      eapply extends_trans; [|by apply extends_effect]. exact Hs.
    - eapply extends_trans; [exact H12|]. exact Hs.
    - eapply extends_trans; [exact H12|].
      eapply extends_trans; [|by apply extends_effect]. exact Hs. }
  destruct (Runner.load E st1) as [[b|error] st2]; cbn [fst snd] in *.
  - eapply extends_trans; eassumption.
  - unfold lift, ret. destruct (JS.prop "message" error) as [m|te]; cbn [fst snd].
    + eapply extends_trans; [exact H1|]. eapply extends_trans; [exact H2|].
      set (st3 := logToFile ERROR "[Load Plugin] Failed to load plugin" st2).
      set (st4 := logToFile ERROR "[Load Plugin] Error stack" st3).
      assert (extends passive st2 st4) as H24.
      { apply (extends_trans _ _ st3); by apply extends_effect. }
      destruct (parentPort E); cbn [fst snd].
      * eapply extends_trans; [exact H24|]. by apply extends_effect.
      * exact H24.
    + eapply extends_trans; eassumption.
Qed.

Lemma prop_abrupt (k : string) (v te : value) :
  JS.prop k v = Abrupt te -> exists detail, te = JS.TypeError detail.
Proof. destruct v; simpl; intros [= <-]; eexists; reflexivity. Qed.

(** What [loadPlugin] throws is the TypeError of its [catch] block. *)
Lemma loadPlugin_abrupt (st : state) (e : value) :
  (Runner.loadPlugin E st).1 = Abrupt e -> exists detail, e = JS.TypeError detail.
Proof.
  unfold Runner.loadPlugin, bind, log, act, try_catch. cbn [fst snd].
  destruct (Runner.load E _) as [[b|error] st2]; cbn [fst snd]; [discriminate|].
  unfold lift, ret.
  destruct (JS.prop "message" error) as [m|te] eqn:Hprop; cbn [fst snd].
  - destruct (parentPort E); discriminate.
  - intros [= <-]. eapply prop_abrupt, Hprop.
Qed.

(** The three ways the start-up ends: the listener is registered and the
    readiness notification written last; or one error response is written
    and the process exits; or nothing is written at all (no plugin path,
    or not the main thread). Before that, stdout only has what the plugin
    sent while it loaded. *)
Lemma main_cases (pluginPath : option string) :
  let st := Runner.main E pluginPath in
  let loaded := (Runner.loadPlugin E (logInfo "[Main] Loading plugin" Runner.initial)).1 in
  waiting st = [] /\ messageCount st = 0 /\ buffer st = ""
  /\ ((exists earlier,
          trace st = Stdout Ready initResponse :: earlier
          /\ forallb passive earlier = true /\ alive st = true)
      \/ (exists detail earlier,
            trace st
            = Exit 1 :: Stdout LoadFailed (Runner.errorResponse (VStr detail)) :: earlier
            /\ forallb passive earlier = true /\ alive st = false
            /\ loaded <> Normal true)
      \/ (forallb passive (trace st) = true /\ alive st = false
          /\ (isMainThread E = false \/ Runner.missing pluginPath = true))).
Proof.
  unfold Runner.main.
  destruct (isMainThread E); [|by repeat split; right; right; repeat split; left].
  destruct (Runner.missing pluginPath);
    [by repeat split; right; right; repeat split; right|].
  destruct (loadPlugin_extends (logInfo "[Main] Loading plugin" Runner.initial))
    as (Hb & Hm & Hw & Ha & new & Ht & Hp).
  pose proof (loadPlugin_abrupt (logInfo "[Main] Loading plugin" Runner.initial)) as Habrupt.
  destruct (Runner.loadPlugin E (logInfo "[Main] Loading plugin" Runner.initial))
    as [[[|]|error] st1]; simpl in Ht, Hw, Hm, Hb, Ha, Habrupt; simpl;
    rewrite ?Hw, ?Hm, ?Hb; repeat split.
  - left. eexists. split; [reflexivity|]. split; [|reflexivity].
    simpl. rewrite Ht, forallb_app, Hp. reflexivity.
  - right. left. eexists _, _. split; [reflexivity|].
    split; [|split; [exact Ha|discriminate]].
    simpl. rewrite Ht, forallb_app, Hp. reflexivity.
  - right. left. destruct (Habrupt error eq_refl) as [detail ->].
    eexists _, _. split; [reflexivity|].
    split; [|split; [exact Ha|discriminate]].
    simpl. rewrite Ht, forallb_app, Hp. reflexivity.
Qed.

(** A start-up that succeeds: the main thread, a plugin path, and
    [loadPlugin] returns [true]. *)
Lemma main_success (pluginPath : option string) :
  isMainThread E = true ->
  Runner.missing pluginPath = false ->
  (Runner.loadPlugin E (logInfo "[Main] Loading plugin" Runner.initial)).1 = Normal true ->
  exists earlier,
    trace (Runner.main E pluginPath) = Stdout Ready initResponse :: earlier
    /\ forallb passive earlier = true
    /\ alive (Runner.main E pluginPath) = true.
Proof.
  intros Hmain Hpath Hok.
  destruct (main_cases pluginPath) as (_ & _ & _ & [H|[H|H]]); [exact H|exfalso..].
  - destruct H as (detail & earlier & _ & _ & _ & Hnot). by destruct Hnot.
  - destruct H as (_ & _ & [H|H]); congruence.
Qed.

(** The start-up starts no line and writes no response. *)
Lemma main_trace_startup (pluginPath : option string) :
  forallb startup_effect (trace (Runner.main E pluginPath)) = true.
Proof.
  destruct (main_cases pluginPath) as (_ & _ & _ & [H|[H|H]]).
  - destruct H as (earlier & -> & Hearlier & _). simpl. by apply passive_startup.
  - destruct H as (detail & earlier & -> & Hearlier & _). simpl. by apply passive_startup.
  - destruct H as (Hpassive & _). by apply passive_startup.
Qed.


(** C7. After a start-up in which [loadPlugin] returns [true], whatever
    input follows, the trace
    is the start-up, then the readiness notification, then the work of the
    listener: the notification is written once, and no response is written
    before it (stdout has before it only what the plugin sent while it
    loaded). *)
Theorem readiness_notification_first (pluginPath : option string)
    (inputs : list Runner.input) :
  isMainThread E = true ->
  Runner.missing pluginPath = false ->
  (Runner.loadPlugin E (logInfo "[Main] Loading plugin" Runner.initial)).1 = Normal true ->
  exists later earlier,
    trace (Runner.run_inputs E (Runner.main E pluginPath) inputs)
    = later ++ Stdout Ready initResponse :: earlier
    /\ forallb passive earlier = true
    /\ forallb listener_effect later = true
    /\ (forall doc, (Stdout Ready doc ∉ later) /\ (Stdout Ready doc ∉ earlier))
    /\ (forall n doc, Stdout (Response n) doc ∉ earlier).
Proof.
  intros Hmain Hpath Hok.
  destruct (main_success pluginPath Hmain Hpath Hok) as (earlier & Ht & Hearlier & _).
  destruct (run_trace inputs (Runner.main E pluginPath)) as (later & Hrun & Hlater).
  exists later, earlier. rewrite Hrun, Ht.
  split; [reflexivity|]. split; [assumption|]. split; [assumption|]. split.
  - intros doc. split; intros Hin.
    + by pose proof (forallb_elem _ _ _ Hlater Hin).
    + by pose proof (forallb_elem _ _ _ Hearlier Hin).
  - intros n doc Hin. by pose proof (forallb_elem _ _ _ Hearlier Hin).
Qed.



End Runs.

(** ** The loop, line by line *)

Lemma append_cons (c : Ascii.ascii) (s t : string) :
  String c s +:+ t = String c (s +:+ t).
Proof. reflexivity. Qed.

Lemma append_empty (s : string) : s +:+ "" = s.
Proof.
  induction s as [|c s IH]; [reflexivity|].
  rewrite append_cons, IH. reflexivity.
Qed.

Lemma append_assoc (s1 s2 s3 : string) : (s1 +:+ s2) +:+ s3 = s1 +:+ (s2 +:+ s3).
Proof.
  induction s1 as [|c s1 IH]; [reflexivity|].
  rewrite !append_cons, IH. reflexivity.
Qed.

(** The loop on a buffer that starts with a whole line. *)
Lemma drain_line (E : env) (line rest : string) :
  newline_free line = true ->
  forall acc st,
    Runner.drain E acc (line +:+ JS.newline +:+ rest) st
    = if JS.blank (acc +:+ line) then Runner.drain E "" rest (set_buffer rest st)
      else
        match Runner.handle_line E (acc +:+ line) (set_buffer rest st) with
        | Continue st' => Runner.drain E "" rest st'
        | Stop st' => st'
        end.
Proof.
  induction line as [|c line IH]; intros Hfree acc st.
  - rewrite append_empty. reflexivity.
  - simpl in Hfree. apply andb_prop in Hfree as [Hc Hfree].
    rewrite append_cons. cbn [Runner.drain].
    destruct (JS.is_newline c); [discriminate|].
    rewrite (IH Hfree). rewrite append_assoc. reflexivity.
Qed.

(** ** Lines that are not JSON *)

Section Malformed.

Context (E : env).

(** C3: what the code does with a line that [JSON.parse] rejects. The
    outer [catch] logs, then throws a ReferenceError where it reads
    [message], before its write: nothing is written to stdout for the
    line, the promise of the listener is rejected and not handled, the
    loop is left and the rest of the chunk stays in the buffer; under a
    Node that terminates on unhandled rejections the process exits. *)
Theorem malformed_line_is_not_answered (line rest detail : string) (st : state) :
  JSON_parse E line = inl detail ->
  newline_free line = true ->
  JS.blank line = false ->
  alive st = true ->
  buffer st = "" ->
  let st' := Runner.on_data E (line +:+ JS.newline +:+ rest) st in
  stdout_of (trace st') = stdout_of (trace st)
  /\ Unhandled (JS.ReferenceError "message is not defined") ∈ trace st'
  /\ buffer st' = rest
  /\ waiting st' = waiting st
  /\ alive st' = negb (unhandled_rejections_throw E).
Proof.
  intros Hparse Hfree Hblank Halive Hbuffer st'. subst st'.
  unfold Runner.on_data. rewrite Halive, Hbuffer.
  change ("" +:+ line +:+ JS.newline +:+ rest) with (line +:+ JS.newline +:+ rest).
  rewrite (drain_line E line rest Hfree "" st).
  change ("" +:+ line) with line. rewrite Hblank.
  unfold Runner.handle_line. rewrite Hparse.
  unfold Runner.outer_catch, unhandled. simpl.
  destruct (unhandled_rejections_throw E); simpl; rewrite ?Halive; repeat split; set_solver.
Qed.

End Malformed.

(** ** Requests without a handler *)

Section NoHandler.

Context (E : env).




End NoHandler.

(** ** The two fields of a response *)

Section Responses.

Context (E : env).




End Responses.

(** ** Order of dispatches *)





Section Order.

Context (E : env).









End Order.

(** ** The properties on sample runs *)

Lemma readiness_notification_first_witness :
  exists later earlier,
    trace (Runner.run_inputs Samples.list_env (Runner.main Samples.list_env (Some "plugin.js"))
             [Runner.Data (Samples.line1 +:+ JS.newline)])
    = later ++ Stdout Ready initResponse :: earlier
    /\ forallb passive earlier = true
    /\ forallb listener_effect later = true
    /\ (forall doc, (Stdout Ready doc ∉ later) /\ (Stdout Ready doc ∉ earlier))
    /\ (forall n doc, Stdout (Response n) doc ∉ earlier).
Proof.
  apply (readiness_notification_first Samples.list_env (Some "plugin.js")
           [Runner.Data (Samples.line1 +:+ JS.newline)]); reflexivity.
Defined.

(** The search of the specification's example: the handler returns a list
    of two items, which comes back as [result] with [error] [null], after
    the readiness notification. *)
Example search_returns_the_list :
  rev (stdout_of
         (trace (Runner.run_inputs Samples.list_env
                   (Runner.main Samples.list_env (Some "plugin.js"))
                   [Runner.Data (Samples.line1 +:+ JS.newline)])))
  = [(Ready, initResponse); (Response 1, response (VNum 1) Samples.two_items VNull)].
Proof. reflexivity. Qed.




Lemma malformed_line_is_not_answered_witness :
  stdout_of
    (trace (Runner.on_data Samples.list_env
              (Samples.bad_line +:+ JS.newline +:+ Samples.line1 +:+ JS.newline)
              (Runner.main Samples.list_env (Some "plugin.js"))))
  = stdout_of (trace (Runner.main Samples.list_env (Some "plugin.js")))
  /\ Unhandled (JS.ReferenceError "message is not defined")
     ∈ trace (Runner.on_data Samples.list_env
                (Samples.bad_line +:+ JS.newline +:+ Samples.line1 +:+ JS.newline)
                (Runner.main Samples.list_env (Some "plugin.js")))
  /\ buffer (Runner.on_data Samples.list_env
               (Samples.bad_line +:+ JS.newline +:+ Samples.line1 +:+ JS.newline)
               (Runner.main Samples.list_env (Some "plugin.js")))
     = Samples.line1 +:+ JS.newline
  /\ waiting (Runner.on_data Samples.list_env
                (Samples.bad_line +:+ JS.newline +:+ Samples.line1 +:+ JS.newline)
                (Runner.main Samples.list_env (Some "plugin.js")))
     = waiting (Runner.main Samples.list_env (Some "plugin.js"))
  /\ alive (Runner.on_data Samples.list_env
              (Samples.bad_line +:+ JS.newline +:+ Samples.line1 +:+ JS.newline)
              (Runner.main Samples.list_env (Some "plugin.js")))
     = false.
Proof.
  apply (malformed_line_is_not_answered Samples.list_env Samples.bad_line
           (Samples.line1 +:+ JS.newline) "Unexpected token b in JSON at position 1"
           (Runner.main Samples.list_env (Some "plugin.js"))); reflexivity.
Defined.

(** A line that is not JSON, followed in the same chunk by a well-formed
    request: stdout has the readiness notification and nothing else, and
    the request stays in the buffer. Under a Node that terminates on an
    unhandled rejection the process exits; under one that only warns, the
    request waits for another chunk. *)
Example malformed_line_then_request :
  JSON_parse Samples.list_env Samples.bad_line = inl "Unexpected token b in JSON at position 1"
  /\ (let st := Runner.run_inputs Samples.list_env
                  (Runner.main Samples.list_env (Some "plugin.js"))
                  [Runner.Data (Samples.bad_line +:+ JS.newline +:+ Samples.line1 +:+ JS.newline)] in
      stdout_of (trace st) = [(Ready, initResponse)]
      /\ firstn 2 (trace st)
         = [Exit 1; Unhandled (JS.ReferenceError "message is not defined")]
      /\ buffer st = Samples.line1 +:+ JS.newline
      /\ alive st = false)
  /\ (let st := Runner.run_inputs (Samples.lenient_env [("request", Plugin 0)])
                  (Runner.main (Samples.lenient_env [("request", Plugin 0)]) (Some "plugin.js"))
                  [Runner.Data (Samples.bad_line +:+ JS.newline +:+ Samples.line1 +:+ JS.newline)] in
      stdout_of (trace st) = [(Ready, initResponse)]
      /\ firstn 1 (trace st) = [Unhandled (JS.ReferenceError "message is not defined")]
      /\ buffer st = Samples.line1 +:+ JS.newline
      /\ alive st = true).
Proof. repeat split; reflexivity. Qed.


(** Without a handler, two requests in a row get two error responses. *)
Example no_handler_then_next_request :
  rev (stdout_of
         (trace (Runner.run_inputs Samples.bare_env
                   (Runner.main Samples.bare_env (Some "plugin.js"))
                   [Runner.Data (Samples.line1 +:+ JS.newline +:+ Samples.line2 +:+ JS.newline)])))
  = [(Ready, initResponse);
     (Response 1, response (VNum 1) VUndefined (VStr "No request handler registered"));
     (Response 2, response (VNum 2) VUndefined (VStr "No request handler registered"))].
Proof. reflexivity. Qed.


(** Two requests in one chunk, the first one slow: the second is not
    started before the first is answered. *)
Example one_chunk_in_order :
  rev (stdout_of
         (trace
            (Runner.run_inputs Samples.slow_env (Runner.main Samples.slow_env (Some "plugin.js"))
               [Runner.Data (Samples.line1 +:+ JS.newline +:+ Samples.line2 +:+ JS.newline);
                Runner.Settle 1 (Fulfilled (VStr "late"))])))
  = [(Ready, initResponse);
     (Response 1, response (VNum 1) (VStr "late") VNull);
     (Response 2, response (VNum 2) Samples.two_items VNull)].
Proof. reflexivity. Qed.


(** * Further properties of the code *)

(** ** Requests that cannot be dispatched *)



Section Requests.

Context (E : env).






End Requests.



(** ** Framing *)

Lemma blank_app (s t : string) : JS.blank (s +:+ t) = JS.blank s && JS.blank t.
Proof.
  induction s as [|c s IH]; [reflexivity|].
  rewrite append_cons. simpl. rewrite IH. by rewrite andb_assoc.
Qed.

Lemma newline_free_app (s t : string) :
  newline_free (s +:+ t) = newline_free s && newline_free t.
Proof.
  induction s as [|c s IH]; [reflexivity|].
  rewrite append_cons. simpl. rewrite IH. by rewrite andb_assoc.
Qed.

Section Framing.

Context (E : env).

(** The loop never reads the buffer variable before it assigns it. *)
Lemma drain_set_buffer (buf acc b : string) (st : state) :
  Runner.drain E acc buf (set_buffer b st) = Runner.drain E acc buf st.
Proof.
  revert acc. induction buf as [|c buf IH]; intros acc; simpl; [reflexivity|].
  destruct (JS.is_newline c); [reflexivity|apply IH].
Qed.

Lemma drain_newline_free (buf acc : string) (st : state) :
  newline_free buf = true -> Runner.drain E acc buf st = set_buffer (acc +:+ buf) st.
Proof.
  revert acc. induction buf as [|c buf IH]; intros acc Hfree; simpl.
  - by rewrite append_empty.
  - simpl in Hfree. apply andb_prop in Hfree as [Hc Hfree].
    destruct (JS.is_newline c); [discriminate|].
    rewrite (IH _ Hfree), append_assoc. reflexivity.
Qed.

Lemma drain_blank (buf acc : string) (st : state) :
  JS.blank acc = true -> newline_free acc = true -> JS.blank buf = true ->
  exists b,
    Runner.drain E acc buf st = set_buffer b st
    /\ JS.blank b = true /\ newline_free b = true.
Proof.
  revert acc st. induction buf as [|c buf IH]; intros acc st Hacc Hfree Hbuf; simpl.
  - by exists acc.
  - simpl in Hbuf. apply andb_prop in Hbuf as [Hc Hbuf].
    destruct (JS.is_newline c) eqn:Hnl.
    + rewrite Hacc.
      destruct (IH "" (set_buffer buf st) eq_refl eq_refl Hbuf) as (b & -> & Hb).
      by exists b.
    + apply IH; [| |exact Hbuf].
      * rewrite blank_app, Hacc. simpl. by rewrite Hc.
      * rewrite newline_free_app, Hfree. simpl. by rewrite Hnl.
Qed.

(** X3. Input that is white space only (blank lines) is skipped: the lines
    are not numbered, nothing is written or logged, and only the buffer
    changes, to the white space that follows the last newline. *)
Theorem blank_input_is_skipped (chunk : string) (st : state) :
  alive st = true ->
  JS.blank (buffer st) = true ->
  JS.blank chunk = true ->
  exists b,
    Runner.on_data E chunk st = set_buffer b st
    /\ JS.blank b = true /\ newline_free b = true.
Proof.
  intros Halive Hbuffer Hchunk. unfold Runner.on_data. rewrite Halive.
  apply drain_blank; [reflexivity|reflexivity|].
  by rewrite blank_app, Hbuffer, Hchunk.
Qed.

(** X4. A line that arrives in two chunks is handled as if it had arrived in
    one: while the buffer and the first chunk hold no newline, the first
    chunk is only stored, and the second chunk finds it in the buffer. *)
Theorem split_line_is_reassembled (a b : string) (st : state) :
  alive st = true ->
  newline_free (buffer st +:+ a) = true ->
  Runner.on_data E b (Runner.on_data E a st) = Runner.on_data E (a +:+ b) st.
Proof.
  intros Halive Hfree. unfold Runner.on_data at 2. rewrite Halive.
  rewrite (drain_newline_free _ _ _ Hfree).
  change ("" +:+ (buffer st +:+ a)) with (buffer st +:+ a).
  unfold Runner.on_data. simpl. rewrite Halive.
  rewrite drain_set_buffer, append_assoc. reflexivity.
Qed.

(** X5. Once the process has exited, input does nothing; so after a start-up
    that did not register the listener (a worker thread, no plugin path,
    a plugin that failed to load) no request is ever handled. *)
Theorem exited_process_ignores_input :
  (forall st inputs, alive st = false -> Runner.run_inputs E st inputs = st)
  /\ (forall pluginPath inputs,
        isMainThread E = false \/ Runner.missing pluginPath = true
        \/ (Runner.loadPlugin E (logInfo "[Main] Loading plugin" Runner.initial)).1
           <> Normal true ->
        Runner.run_inputs E (Runner.main E pluginPath) inputs = Runner.main E pluginPath).
Proof.
  assert (forall st inputs, alive st = false -> Runner.run_inputs E st inputs = st) as Hdead.
  { intros st inputs Hdead. induction inputs as [|i inputs IH]; [reflexivity|].
    simpl. assert (Runner.step E st i = st) as ->; [|exact IH].
    destruct i as [chunk|n o]; simpl.
    - unfold Runner.on_data. by rewrite Hdead.
    - unfold Runner.on_settle. by rewrite Hdead. }
  split; [exact Hdead|].
  intros pluginPath inputs H. apply Hdead. unfold Runner.main.
  destruct (isMainThread E); [|reflexivity].
  destruct (Runner.missing pluginPath); [reflexivity|].
  destruct H as [H|[H|H]]; try discriminate.
  destruct (loadPlugin_extends E (logInfo "[Main] Loading plugin" Runner.initial))
    as (_ & _ & _ & Ha & _).
  destruct (Runner.loadPlugin E (logInfo "[Main] Loading plugin" Runner.initial))
    as [[[|]|e] st']; simpl in *; [by destruct H|exact Ha|exact Ha].
Qed.

End Framing.

Lemma blank_input_is_skipped_witness :
  exists b,
    Runner.on_data Samples.list_env (" " +:+ JS.newline +:+ JS.newline +:+ "  ")
      (Runner.main Samples.list_env (Some "plugin.js"))
    = set_buffer b (Runner.main Samples.list_env (Some "plugin.js"))
    /\ JS.blank b = true /\ newline_free b = true.
Proof.
  apply (blank_input_is_skipped Samples.list_env (" " +:+ JS.newline +:+ JS.newline +:+ "  ")
           (Runner.main Samples.list_env (Some "plugin.js"))); reflexivity.
Defined.

Lemma split_line_is_reassembled_witness :
  Runner.on_data Samples.list_env ("abc" +:+ JS.quote +:+ "}}" +:+ JS.newline)
    (Runner.on_data Samples.list_env
       ("{" +:+ Samples.jstr "id" +:+ ":1," +:+ Samples.jstr "method" +:+ ":"
        +:+ Samples.jstr "search" +:+ "," +:+ Samples.jstr "params" +:+ ":{"
        +:+ Samples.jstr "keyword" +:+ ":" +:+ JS.quote)
       (Runner.main Samples.list_env (Some "plugin.js")))
  = Runner.on_data Samples.list_env
      (("{" +:+ Samples.jstr "id" +:+ ":1," +:+ Samples.jstr "method" +:+ ":"
        +:+ Samples.jstr "search" +:+ "," +:+ Samples.jstr "params" +:+ ":{"
        +:+ Samples.jstr "keyword" +:+ ":" +:+ JS.quote)
       +:+ ("abc" +:+ JS.quote +:+ "}}" +:+ JS.newline))
      (Runner.main Samples.list_env (Some "plugin.js")).
Proof.
  apply (split_line_is_reassembled Samples.list_env); reflexivity.
Defined.

(** The request of the witness, in two chunks: one response, for the
    whole line. *)
Example split_request_is_answered_once :
  rev (stdout_of
         (trace (Runner.run_inputs Samples.list_env
                   (Runner.main Samples.list_env (Some "plugin.js"))
                   [Runner.Data ("{" +:+ Samples.jstr "id" +:+ ":1," +:+ Samples.jstr "method"
                                 +:+ ":" +:+ Samples.jstr "search" +:+ ","
                                 +:+ Samples.jstr "params" +:+ ":{"
                                 +:+ Samples.jstr "keyword" +:+ ":" +:+ JS.quote);
                    Runner.Data ("abc" +:+ JS.quote +:+ "}}" +:+ JS.newline)])))
  = [(Ready, initResponse); (Response 1, response (VNum 1) Samples.two_items VNull)].
Proof. reflexivity. Qed.

(** ** The call of the request handler *)

Lemma prop_defined (k : string) (v : value) :
  JS.nullish v = false -> JS.prop k v = Normal (JS.prop_opt k v).
Proof. unfold JS.prop_opt. destruct v; try discriminate; reflexivity. Qed.


Section Calls.

Context (E : env).











End Calls.

(** The three properties on sample requests. *)




(** ** Promises that are settled later *)

Section Settlements.

Context (E : env).


End Settlements.


(** ** A plugin that fails to load *)

Section LoadFailure.

Context (E : env).


End LoadFailure.


(** The start-up with a plugin file that cannot be read, in full. *)
Example unreadable_plugin_run :
  rev (trace (Runner.run_inputs Cases.unreadable_env
                (Runner.main Cases.unreadable_env (Some "plugin.js"))
                [Runner.Data (Samples.line1 +:+ JS.newline)]))
  = [Log INFO "========== LX Plugin Runner Starting ==========";
     Log INFO "Node version"; Log INFO "Working directory"; Log INFO "Log file";
     Log INFO "[Main] Loading plugin";
     Log INFO "[Load Plugin] Starting to load plugin";
     Log ERROR "[Load Plugin] Failed to load plugin";
     Log ERROR "[Load Plugin] Error stack";
     Log ERROR "[Main] Failed to load plugin";
     Stdout LoadFailed (Runner.errorResponse (VStr "Failed to load plugin"));
     Exit 1].
Proof. reflexivity. Qed.

(** ** One response for a line *)

Lemma answered_lines_internal (new t : list effect) :
  forallb internal new = true -> answered_lines (new ++ t) = answered_lines t.
Proof.
  induction new as [|e new IH]; [reflexivity|].
  simpl. intros [He Hnew]%andb_prop.
  destruct e as [[]| | | | | | | |]; try discriminate; simpl; auto.
Qed.

Lemma filter_numbers (f : task -> bool) (w : list task) (n : nat) :
  n ∈ map t_n (List.filter f w) -> n ∈ map t_n w.
Proof.
  intros (t & -> & Hin)%list_elem_of_fmap.
  apply list_elem_of_In, filter_In in Hin as [Hin _].
  apply list_elem_of_fmap. exists t. split; [reflexivity|]. by apply list_elem_of_In.
Qed.

Lemma filter_numbers_NoDup (f : task -> bool) (w : list task) :
  NoDup (map t_n w) -> NoDup (map t_n (List.filter f w)).
Proof.
  induction w as [|t w IH]; simpl; [done|].
  intros [Ht Hw]%NoDup_cons. destruct (f t); simpl; [|by apply IH].
  apply NoDup_cons. split; [|by apply IH].
  intros Hin. apply Ht. by eapply filter_numbers.
Qed.

Lemma numbers_inj (w : list task) (t t' : task) :
  NoDup (map t_n w) -> t ∈ w -> t' ∈ w -> t_n t = t_n t' -> t = t'.
Proof.
  induction w as [|t0 w IH]; simpl; intros Hnodup Ht Ht' Heq.
  - by apply elem_of_nil in Ht.
  - apply NoDup_cons in Hnodup as [Ht0 Hw].
    apply elem_of_cons in Ht as [->|Ht]; apply elem_of_cons in Ht' as [->|Ht'].
    + reflexivity.
    + exfalso. apply Ht0. rewrite Heq. apply list_elem_of_fmap. by exists t'.
    + exfalso. apply Ht0. rewrite <- Heq. apply list_elem_of_fmap. by exists t.
    + by apply IH.
Qed.

Lemma stall_numbers (n : nat) (w : list task) :
  map t_n (map (Runner.stall n) w) = map t_n w.
Proof.
  induction w as [|t w IH]; simpl; [reflexivity|].
  rewrite IH. unfold Runner.stall. by destruct (Runner.awaits n t).
Qed.

Lemma awaits_stall (n : nat) (t : task) : Runner.awaits n (Runner.stall n t) = false.
Proof.
  unfold Runner.stall. destruct (Runner.awaits n t) eqn:Ha; [|exact Ha].
  unfold Runner.awaits. simpl. apply andb_false_r.
Qed.

Lemma find_stalled (n : nat) (w : list task) :
  List.find (Runner.awaits n) (map (Runner.stall n) w) = None.
Proof.
  induction w as [|t w IH]; [reflexivity|].
  simpl. by rewrite awaits_stall.
Qed.

Section Once.

Context (E : env).

(** X11. No line is answered twice, in any run: a response is written where
    the line is handled, or where the invocation of the listener that was
    suspended on it is resumed, and that invocation is then gone. *)
Theorem answered_at_most_once (pluginPath : option string) (inputs : list Runner.input) :
  NoDup (answered_lines (trace (Runner.run_inputs E (Runner.main E pluginPath) inputs))).
Proof.
  set (P := fun st : state =>
         NoDup (answered_lines (trace st) ++ map t_n (waiting st))
         /\ (forall n, n ∈ answered_lines (trace st) ++ map t_n (waiting st) ->
               n <= messageCount st)).
  assert (P (Runner.run_inputs E (Runner.main E pluginPath) inputs)) as [HP _].
  2: { by apply NoDup_app in HP as (HP & _). }
  apply run_invariant.
  - intros b st H. exact H.
  - intros line st it [Hnodup Hle] Hout.
    assert (S (messageCount st) ∉ answered_lines (trace st) ++ map t_n (waiting st))
      as Hfresh.
    { intros Hin. specialize (Hle _ Hin). lia. }
    destruct Hout as [message doc new st' _ _ _ Hnew Ht _ Hm Hw _
                     |message new st' _ _ Hnew Ht _ Hm Hw _
                     |new st' Hnew Ht _ Hm Hw]; simpl.
    + assert (answered_lines (trace st')
              = S (messageCount st) :: answered_lines (trace st)) as Ha.
      { rewrite Ht. simpl. by rewrite (answered_lines_internal new). }
      split.
      * rewrite Ha, Hw. simpl. by apply NoDup_cons.
      * intros n. rewrite Ha, Hw, Hm. simpl.
        intros Hin. apply elem_of_cons in Hin as [->|Hin]; [lia|].
        specialize (Hle _ Hin). lia.
    + assert (answered_lines (trace st') = answered_lines (trace st)) as Ha.
      { rewrite Ht. by rewrite (answered_lines_internal new). }
      split.
      * rewrite Ha, Hw, map_app, app_assoc. simpl.
        apply NoDup_app. split; [exact Hnodup|]. split; [|apply NoDup_singleton].
        intros n Hin Hn. apply list_elem_of_singleton in Hn as ->. by apply Hfresh.
      * intros n. rewrite Ha, Hw, Hm, map_app, app_assoc. simpl.
        intros Hin. apply elem_of_app in Hin as [Hin|Hin].
        -- specialize (Hle _ Hin). lia.
        -- apply list_elem_of_singleton in Hin as ->. lia.
    + assert (answered_lines (trace st') = answered_lines (trace st)) as Ha.
      { rewrite Ht. by rewrite (answered_lines_internal new). }
      split.
      * by rewrite Ha, Hw.
      * intros n. rewrite Ha, Hw, Hm. intros Hin. specialize (Hle _ Hin). lia.
  - intros n st it [Hnodup Hle] Hres.
    pose proof Hnodup as Hall.
    apply NoDup_app in Hnodup as (Hanswered & Hdisjoint & Hwaiting).
    assert (forall f,
               NoDup (answered_lines (trace st) ++ map t_n (List.filter f (waiting st))))
      as Hfilter.
    { intros f. apply NoDup_app. split; [exact Hanswered|].
      split; [|by apply filter_numbers_NoDup].
      intros x Hx Hxf. apply (Hdisjoint x Hx). by eapply filter_numbers. }
    assert (forall f x,
               x ∈ answered_lines (trace st) ++ map t_n (List.filter f (waiting st)) ->
               x <= messageCount st) as Hle_filter.
    { intros f x Hx. apply Hle. apply elem_of_app in Hx as [Hx|Hx]; apply elem_of_app;
        [by left|right]. by eapply filter_numbers. }
    destruct Hres as [t doc new st' Hin Hawaits _ Hnew Ht _ Hm Hw _
                     |new st' Hnew Ht _ Hm Hw
                     |new st' Hnew Ht _ Hm Hw]; simpl.
    + assert (answered_lines (trace st') = n :: answered_lines (trace st)) as Ha.
      { rewrite Ht. simpl.
        by rewrite (answered_lines_internal new) by by apply forallb_passive_internal. }
      assert (t_n t = n) as Hn.
      { unfold Runner.awaits in Hawaits. by apply andb_prop in Hawaits as [?%Nat.eqb_eq _]. }
      assert (n ∈ map t_n (waiting st)) as Hnw.
      { apply list_elem_of_fmap. by exists t. }
      assert (n ∉ map t_n (List.filter (fun t => negb (Runner.awaits n t)) (waiting st)))
        as Hgone.
      { intros (t' & Hn' & Hin')%list_elem_of_fmap.
        apply list_elem_of_In, filter_In in Hin' as [Hin' Hnot].
        apply list_elem_of_In in Hin'.
        assert (t = t') as <- by (apply (numbers_inj (waiting st)); congruence).
        by rewrite Hawaits in Hnot. }
      split.
      * rewrite Ha, Hw. simpl. apply NoDup_cons. split; [|apply Hfilter].
        intros Hx. apply elem_of_app in Hx as [Hx|Hx]; [|by apply Hgone].
        by apply (Hdisjoint n Hx).
      * intros x. rewrite Ha, Hw, Hm. simpl. intros Hx.
        apply elem_of_cons in Hx as [->|Hx]; [|by eapply Hle_filter].
        apply Hle. apply elem_of_app. by right.
    + assert (answered_lines (trace st') = answered_lines (trace st)) as Ha.
      { rewrite Ht.
        by rewrite (answered_lines_internal new) by by apply forallb_passive_internal. }
      unfold P. simpl. rewrite Ha, Hw, Hm, stall_numbers. by split.
    + assert (answered_lines (trace st') = answered_lines (trace st)) as Ha.
      { rewrite Ht.
        by rewrite (answered_lines_internal new) by by apply forallb_passive_internal. }
      unfold P. simpl. rewrite Ha, Hw, Hm. split; [apply Hfilter|apply Hle_filter].
  - destruct (main_cases E pluginPath) as (Hw & _).
    assert (answered_lines (trace (Runner.main E pluginPath)) = []) as Ha.
    { pose proof (main_trace_startup E pluginPath) as Hstart.
      induction (trace (Runner.main E pluginPath)) as [|e t IH]; [reflexivity|].
      simpl in Hstart. apply andb_prop in Hstart as [He Ht].
      destruct e as [[]| | | | | | | |]; try discriminate; simpl; auto. }
    split.
    + rewrite Ha, Hw. apply NoDup_nil_2.
    + intros n. rewrite Ha, Hw. simpl. intros Hin. by apply elem_of_nil in Hin.
Qed.

(** X12. A handler whose promise is rejected with [null] or [undefined] leaves
    its request without any answer, for good: the [catch] callback of
    [handleExternalRequest] throws where it reads [error.message], so the
    promise the method awaits is never settled, and the rejection that
    nothing handles ends the process under a Node that is strict about
    them. *)
Theorem null_rejection_is_never_answered (n : nat) (e : value) (t : task) (st : state) :
  alive st = true ->
  List.find (Runner.awaits n) (waiting st) = Some t ->
  JS.nullish e = true ->
  let st' := Runner.on_settle E n (Rejected e) st in
  stdout_of (trace st') = stdout_of (trace st)
  /\ (exists detail, Unhandled (JS.TypeError detail) ∈ trace st')
  /\ alive st' = negb (unhandled_rejections_throw E)
  /\ forall o, Runner.on_settle E n o st' = st'.
Proof.
  intros Halive Hfind Hnull st'.
  assert (exists detail, JS.prop "message" e = Abrupt (JS.TypeError detail)) as [detail He].
  { destruct e; try discriminate; by eexists. }
  assert (st' = set_waiting (map (Runner.stall n) (waiting st))
                  (unhandled E (JS.TypeError detail) st)) as ->.
  { subst st'. unfold Runner.on_settle. rewrite Halive, Hfind.
    unfold Runner.then_catch, Runner.on_rejected. rewrite He. cbn [fst snd].
    unfold unhandled. by destruct (unhandled_rejections_throw E). }
  pose proof (find_stalled n (waiting st)) as Hnone.
  unfold unhandled. destruct (unhandled_rejections_throw E); simpl.
  - split; [reflexivity|]. split; [exists detail; set_solver|]. split; [reflexivity|].
    intros o. reflexivity.
  - split; [reflexivity|]. split; [exists detail; set_solver|]. split; [exact Halive|].
    intros o. unfold Runner.on_settle. simpl. by rewrite Halive, Hnone.
Qed.

End Once.

Lemma null_rejection_is_never_answered_witness :
  let st := Runner.on_data Samples.slow_env (Samples.line1 +:+ JS.newline)
              (Runner.main Samples.slow_env (Some "plugin.js")) in
  stdout_of (trace (Runner.on_settle Samples.slow_env 1 (Rejected VNull) st))
  = stdout_of (trace st)
  /\ (exists detail,
        Unhandled (JS.TypeError detail)
        ∈ trace (Runner.on_settle Samples.slow_env 1 (Rejected VNull) st))
  /\ alive (Runner.on_settle Samples.slow_env 1 (Rejected VNull) st)
     = negb (unhandled_rejections_throw Samples.slow_env)
  /\ forall o,
      Runner.on_settle Samples.slow_env 1 o
        (Runner.on_settle Samples.slow_env 1 (Rejected VNull) st)
      = Runner.on_settle Samples.slow_env 1 (Rejected VNull) st.
Proof.
  apply (null_rejection_is_never_answered Samples.slow_env 1 VNull
           (Task 1 (VNum 1) "search" false)
           (Runner.on_data Samples.slow_env (Samples.line1 +:+ JS.newline)
              (Runner.main Samples.slow_env (Some "plugin.js")))).
  - reflexivity.
  - reflexivity.
  - reflexivity.
Defined.

(** ** What reaches stdout *)









Section Tidy.

Context (E : env).




















End Tidy.


(** ** The registry as handler lists *)


Lemma indexOf_remove_first (f : fn) (a : list fn) :
  match Registry.indexOf f a with
  | Some i => Registry.splice1 i a = remove_first f a
  | None => remove_first f a = a
  end.
Proof.
  induction a as [|g a IH]; simpl; [reflexivity|].
  destruct (decide (g = f)) as [->|Hne]; simpl.
  - unfold Registry.splice1. simpl. by rewrite drop_0.
  - destruct (Registry.indexOf f a) as [i|]; simpl.
    + unfold Registry.splice1 in *. simpl. by rewrite IH.
    + by rewrite IH.
Qed.








(** ** Requests in the variant *)

Section VariantRequests.

Context (E : env).

Lemma variant_send_calls (event : string) (data : value) (st : state) :
  calls_of (trace (Variant.send E event data st).2) = calls_of (trace st).
Proof. unfold Variant.send. by destruct (parentPort E). Qed.

Lemma variant_new_Promise_calls (what : string) (executor : M unit) (st : state) :
  calls_of (trace (executor st).2) = calls_of (trace st) ->
  calls_of (trace (Variant.new_Promise what executor st).2) = calls_of (trace st).
Proof.
  intros H. unfold Variant.new_Promise.
  destruct (executor st) as [[[]|e] st']; exact H.
Qed.

Lemma variant_method_calls (n : nat) (name : string)
    (method : list value -> state -> promise_state * state) (values : list value)
    (st : state) :
  Variant.runner_method E n name = Some method ->
  calls_of (trace (method values st).2) = calls_of (trace st).
Proof.
  unfold Variant.runner_method.
  destruct (String.eqb name "search"); [|destruct (String.eqb name "getMediaSource")];
    intros [= <-].
  - unfold Variant.search. apply variant_new_Promise_calls.
    unfold bind, Variant.require_lx, Variant.on, act.
    destruct (lx_available (shared st)); [|reflexivity].
    by rewrite variant_send_calls.
  - unfold Variant.getMediaSource. apply variant_new_Promise_calls.
    unfold bind, Variant.require_lx, Variant.on, act, lift.
    destruct (lx_available (shared st)); [|reflexivity].
    destruct (JS.prop "quality" _); [|reflexivity].
    by rewrite variant_send_calls.
Qed.

Lemma variant_call_method_calls (n : nat) (name : string) (names : list string)
    (params : value) (st : state) :
  calls_of (trace (Variant.call_method E n name (Variant.arguments names params) st).2)
  = calls_of (trace st).
Proof.
  unfold Variant.call_method, bind.
  destruct (arguments_abrupt_or_normal names params st) as [[d ->]|[vs ->]];
    [reflexivity|].
  destruct (Variant.runner_method E n name) as [method|] eqn:Hmethod; [|reflexivity].
  pose proof (variant_method_calls n name method vs st Hmethod) as H.
  destruct (method vs st). exact H.
Qed.

Lemma variant_dispatch_calls (n : nat) (method params : value) (st : state) :
  calls_of (trace (Variant.dispatch E n method params st).2) = calls_of (trace st).
Proof.
  unfold Variant.dispatch.
  destruct method as [| | | |m| | | |]; try reflexivity.
  repeat match goal with
         | |- context [if String.eqb m ?s then _ else _] => destruct (String.eqb m s)
         end;
    try apply variant_call_method_calls; reflexivity.
Qed.

Lemma variant_finish_calls (n : nat) (id : value) (o : outcome) (st : state) :
  calls_of (trace (state_of (Variant.finish E n id o st))) = calls_of (trace st).
Proof.
  unfold Variant.finish. destruct o as [v|e]; [reflexivity|].
  destruct (JS.prop "message" e); [reflexivity|].
  unfold Variant.outer_catch, unhandled.
  by destruct (unhandled_rejections_throw E).
Qed.

(** X16. In the variant no request ever reaches the plugin: whatever the line,
    handling it calls no registered callback. (Its [search] and
    [getMediaSource] only register a closure of their own and [send] the
    request; nothing in the file calls a [request] handler.) *)
Theorem variant_calls_no_handler (line : string) (st : state) :
  calls_of (trace (state_of (Variant.handle_line E line st))) = calls_of (trace st).
Proof.
  unfold Variant.handle_line.
  destruct (JSON_parse E line) as [detail|message].
  { unfold Variant.outer_catch, unhandled. by destruct (unhandled_rejections_throw E). }
  destruct (Runner.destructure message) as [[[id method] params]|e].
  - pose proof (variant_dispatch_calls (S (messageCount st)) method params
                  (emit_effect (Received (S (messageCount st)) line)
                     (set_messageCount (S (messageCount st)) st))) as H.
    destruct (Variant.dispatch E _ _ _ _) as [[[o|]|e] st']; simpl in H.
    + by rewrite variant_finish_calls.
    + exact H.
    + by rewrite variant_finish_calls.
  - unfold Variant.outer_catch, unhandled. by destruct (unhandled_rejections_throw E).
Qed.

(** X17. In the variant a [search] request is not answered: the runner
    registers a closure for the [search] event, writes the request to
    stdout as a [request] event (when it is the main thread), and the
    invocation of the listener stays suspended on the promise. *)
Theorem variant_search_is_forwarded (line : string) (message : value) (st : state) :
  JSON_parse E line = inr message ->
  JS.nullish message = false ->
  JS.prop_opt "method" message = VStr "search" ->
  JS.nullish (JS.prop_opt "params" message) = false ->
  lx_available (shared st) = true ->
  parentPort E = false ->
  let params := JS.prop_opt "params" message in
  let n := S (messageCount st) in
  exists st',
    Variant.handle_line E line st = Stop st'
    /\ trace st'
       = Stdout SendAny
           (VObj [("event", VStr "request");
                  ("data",
                   VObj [("action", VStr "search");
                         ("source",
                          JS.param_default (VStr "all") (JS.prop_opt "source" params));
                         ("info",
                          VObj [("keyword", JS.prop_opt "keyword" params);
                                ("page",
                                 JS.param_default (VNum 1) (JS.prop_opt "page" params));
                                ("limit",
                                 JS.param_default (VNum 30) (JS.prop_opt "limit" params))])])])
         :: Received n line :: trace st
    /\ shared st' = Registry.on "search" (Listener "search" n) (shared st)
    /\ waiting st' = waiting st ++ [Task n (JS.prop_opt "id" message) "search" false].
Proof.
  intros Hparse Hnull Hmethod Hparams Hlx Hport params n.
  unfold Variant.handle_line. rewrite Hparse.
  unfold Runner.destructure. rewrite Hnull, Hmethod. fold params.
  cbn [Variant.dispatch String.eqb Ascii.eqb Bool.eqb].
  unfold Variant.call_method, bind. simpl Variant.arguments. unfold bind, lift, ret.
  rewrite !(prop_defined _ params Hparams).
  cbn [Variant.runner_method String.eqb Ascii.eqb Bool.eqb Variant.nth_arg lookup
         list_lookup default].
  unfold Variant.search, Variant.new_Promise, bind, Variant.require_lx, Variant.on, act,
    Variant.send.
  cbn [shared emit_effect set_messageCount set_shared]. rewrite Hlx, Hport.
  eexists. split; [reflexivity|]. repeat split.
Qed.

End VariantRequests.

Lemma variant_search_is_forwarded_witness :
  exists st',
    Variant.handle_line Samples.list_env Samples.line1
      (Samples.registered [("request", Plugin 0)])
    = Stop st'
    /\ trace st'
       = [Stdout SendAny
            (VObj [("event", VStr "request");
                   ("data",
                    VObj [("action", VStr "search"); ("source", VStr "all");
                          ("info", VObj [("keyword", VStr "abc"); ("page", VNum 1);
                                         ("limit", VNum 30)])])]);
          Received 1 Samples.line1]
    /\ shared st'
       = Registry.on "search" (Listener "search" 1)
           (shared (Samples.registered [("request", Plugin 0)]))
    /\ waiting st' = [Task 1 (VNum 1) "search" false].
Proof.
  apply (variant_search_is_forwarded Samples.list_env Samples.line1
           (Samples.request_message 1 "search" "keyword" "abc")
           (Samples.registered [("request", Plugin 0)])); reflexivity.
Defined.

(** ** The one-shot closures of the variant *)

Lemma remove_first_middle (f : fn) (a b : list fn) :
  f ∉ a -> remove_first f (a ++ f :: b) = a ++ b.
Proof.
  induction a as [|g a IH]; simpl; intros Hf.
  - by rewrite decide_True.
  - apply not_elem_of_cons in Hf as [Hne Hf].
    rewrite decide_False by congruence. by rewrite IH.
Qed.

Lemma unregister_array (event : string) (f : fn) (s : store) (l : nat) (a : list fn) :
  events s !! event = Some l ->
  arrays s !! l = Some a ->
  events (Registry.unregister event f s) = events s
  /\ array_at l (Registry.unregister event f s) = remove_first f a.
Proof.
  intros Hl Ha. unfold Registry.unregister. rewrite Hl.
  pose proof (indexOf_remove_first f (array_at l s)) as Hidx.
  unfold array_at in *. rewrite Ha in *. simpl in *.
  destruct (Registry.indexOf f a) as [i|]; simpl.
  - split; [reflexivity|]. rewrite list_lookup_alter_eq, Ha. exact Hidx.
  - rewrite Ha. by split.
Qed.

Section OneShot.

Context (E : env).

(** The closure of a pending call, called by an emission: it takes
    itself off the list and resolves its promise. *)
Lemma listener_callback (event : string) (n : nat) (data : value) (st : state) :
  Registry.emit_callback E (Variant.send E) event data (Listener event n) st
  = emit_effect (Resolved n data)
      (set_shared (Registry.unregister event (Listener event n) (shared st))
         (emit_effect (Invoke (Listener event n) data) st)).
Proof. reflexivity. Qed.

Lemma forEach_listeners (event : string) (data : value) (l : nat) :
  forall c i done rest st,
    events (shared st) !! event = Some l ->
    array_at l (shared st) = done ++ map (Listener event) rest ->
    NoDup (done ++ map (Listener event) rest) ->
    length rest <= c ->
    (length done = i \/ (rest = [] /\ length done <= i)) ->
    let st' :=
      fold_left
        (fun st k =>
           match array_at l (shared st) !! k with
           | Some f => Registry.emit_callback E (Variant.send E) event data f st
           | None => st
           end) (seq i c) st in
    events (shared st') !! event = Some l
    /\ array_at l (shared st') = done ++ map (Listener event) (every_other false rest)
    /\ resolved_of (trace st')
       = rev (map (fun n => (n, data)) (every_other true rest)) ++ resolved_of (trace st).
Proof.
  induction c as [|c IH]; intros i done rest st Hl Harr Hnodup Hlen Hi; simpl.
  - destruct rest; [|simpl in Hlen; lia]. by rewrite Harr.
  - destruct rest as [|x rest].
    + assert (array_at l (shared st) !! i = None) as ->.
      { rewrite Harr. simpl. rewrite app_nil_r. apply lookup_ge_None.
        destruct Hi as [<-|[_ Hi]]; lia. }
      apply IH; try assumption; [simpl; lia|].
      right. split; [reflexivity|]. destruct Hi as [<-|[_ Hi]]; lia.
    + destruct Hi as [Hi|[? _]]; [|discriminate].
      assert (array_at l (shared st) !! i = Some (Listener event x)) as ->.
      { rewrite Harr, lookup_app_r by lia. by rewrite Hi, Nat.sub_diag. }
      rewrite listener_callback.
      set (st1 := emit_effect _ _).
      assert (is_Some (arrays (shared st) !! l)) as [a Ha].
      { unfold array_at in Harr. destruct (arrays (shared st) !! l); [by eexists|].
        simpl in Harr. by destruct done. }
      destruct (unregister_array event (Listener event x) (shared st) l a Hl Ha)
        as [Hev Hrem].
      assert (a = done ++ map (Listener event) (x :: rest)) as Ha'.
      { unfold array_at in Harr. by rewrite Ha in Harr. }
      assert (Listener event x ∉ done) as Hx.
      { intros Hin. apply NoDup_app in Hnodup as (_ & Hdis & _).
        apply (Hdis _ Hin). simpl. apply elem_of_cons. by left. }
      assert (array_at l (shared st1) = done ++ map (Listener event) rest) as Harr1.
      { subst st1. simpl. rewrite Hrem, Ha'. simpl. by apply remove_first_middle. }
      assert (events (shared st1) !! event = Some l) as Hl1.
      { subst st1. simpl. by rewrite Hev. }
      assert (NoDup (done ++ map (Listener event) rest)) as Hnodup1.
      { apply NoDup_app in Hnodup as (Hd & Hdis & Hr). simpl in Hr.
        apply NoDup_cons in Hr as [_ Hr].
        apply NoDup_app. split; [exact Hd|]. split; [|exact Hr].
        intros f Hf Hin. apply (Hdis f Hf). simpl. apply elem_of_cons. by right. }
      assert (resolved_of (trace st1) = (x, data) :: resolved_of (trace st)) as Hres1
        by reflexivity.
      destruct rest as [|y rest].
      * destruct (IH (S i) done [] st1 Hl1 Harr1 Hnodup1) as (Hl' & Harr' & Hres');
          [simpl; lia|right; split; [reflexivity|lia]|].
        split; [exact Hl'|]. split; [exact Harr'|].
        rewrite Hres', Hres1. reflexivity.
      * destruct (IH (S i) (done ++ [Listener event y]) rest st1 Hl1) as (Hl' & Harr' & Hres').
        -- rewrite Harr1. simpl. by rewrite <- app_assoc.
        -- simpl in Hnodup1. by rewrite <- app_assoc.
        -- simpl in Hlen. lia.
        -- left. rewrite length_app. simpl. lia.
        -- split; [exact Hl'|]. split.
           ++ rewrite Harr'. simpl. by rewrite <- app_assoc.
           ++ rewrite Hres', Hres1. simpl. by rewrite <- app_assoc.
Qed.

(** X18. In the variant every pending call has a closure in the handler list
    of its event, which takes itself off the list when it is called. As
    [emit] walks the live list, one emission calls the closures at the
    even positions only (the first, the third, ...): those calls are
    resolved, all with the same data, and the others stay pending, in
    their order. *)
Theorem emission_resolves_every_other_call (event : string) (data : value) (l : nat)
    (pending : list nat) (st : state) :
  lx_available (shared st) = true ->
  events (shared st) !! event = Some l ->
  array_at l (shared st) = map (Listener event) pending ->
  NoDup pending ->
  let st' := Variant.emit E event data st in
  array_at l (shared st') = map (Listener event) (every_other false pending)
  /\ resolved_of (trace st')
     = rev (map (fun n => (n, data)) (every_other true pending)) ++ resolved_of (trace st).
Proof.
  intros _ Hl Harr Hnodup. unfold Variant.emit, Registry.emit. rewrite Hl.
  unfold Registry.forEach. rewrite Harr, length_map.
  destruct (forEach_listeners event data l (length pending) 0 [] pending st Hl)
    as (_ & Harr' & Hres'); try done.
  - simpl. apply NoDup_fmap_2; [|exact Hnodup]. by intros n1 n2 [= ->].
  - by left.
Qed.

End OneShot.

Lemma emission_resolves_every_other_call_witness :
  let st := Samples.registered
              [("search", Listener "search" 1); ("search", Listener "search" 2);
               ("search", Listener "search" 3)] in
  array_at 0 (shared (Variant.emit Samples.list_env "search" Samples.two_items st))
  = map (Listener "search") (every_other false [1; 2; 3])
  /\ resolved_of (trace (Variant.emit Samples.list_env "search" Samples.two_items st))
     = rev (map (fun n => (n, Samples.two_items)) (every_other true [1; 2; 3]))
       ++ resolved_of (trace st).
Proof.
  apply (emission_resolves_every_other_call Samples.list_env "search" Samples.two_items 0
           [1; 2; 3]).
  - reflexivity.
  - reflexivity.
  - reflexivity.
  - by apply (bool_decide_unpack _).
Defined.

(** Three searches are pending and the plugin emits one result: the
    first and the third search are resolved with it, the second is left
    waiting. *)
Example one_result_for_three_searches :
  let st := Variant.emit Samples.list_env "search" Samples.two_items
              (Samples.registered
                 [("search", Listener "search" 1); ("search", Listener "search" 2);
                  ("search", Listener "search" 3)]) in
  rev (resolved_of (trace st)) = [(1, Samples.two_items); (3, Samples.two_items)]
  /\ handlers "search" (shared st) = [Listener "search" 2].
Proof. split; reflexivity. Qed.

(** ** The start-up of the variant *)

Section VariantStartup.

Context (E : env).




End VariantStartup.


(** The same plugin under the variant and under the runner: the variant
    writes seven lines, five of them text; the runner writes the [inited]
    event and the readiness notification. *)
Example startup_lines_of_variant_and_runner :
  rev (VariantMain.stdout
         (VariantMain.steps (VariantMain.main Cases.announcing_env (Some "plugin.js"))))
  = [inl "Loading plugin: plugin.js";
     inl "About to execute plugin: plugin.js";
     inr (VObj [("event", VStr "inited"); ("data", VObj [("sources", VArr [])])]);
     inl "Plugin executed successfully: plugin.js";
     inl "Plugin loaded successfully";
     inl "Sending initialization response";
     inr initResponse]
  /\ rev (stdout_of (trace (Runner.main Cases.announcing_env (Some "plugin.js"))))
     = [(SendInited, VObj [("event", VStr "inited"); ("data", VObj [("sources", VArr [])])]);
        (Ready, initResponse)].
Proof. split; reflexivity. Qed.

(** ** The HTTP helper *)

Lemma lookup_set_field_eq (k : string) (v : value) (fields : list (string * value)) :
  JS.lookup_field k (Http.set_field k v fields) = v.
Proof.
  unfold JS.lookup_field.
  induction fields as [|[k' v'] fields IH]; simpl.
  - by rewrite String.eqb_refl.
  - destruct (String.eqb k' k) eqn:Hk; simpl.
    + by rewrite String.eqb_refl.
    + rewrite Hk. exact IH.
Qed.

Lemma lookup_set_field_ne (k k' : string) (v : value) (fields : list (string * value)) :
  k' <> k -> JS.lookup_field k' (Http.set_field k v fields) = JS.lookup_field k' fields.
Proof.
  intros Hne. apply String.eqb_neq in Hne. unfold JS.lookup_field.
  induction fields as [|[k0 v0] fields IH]; simpl.
  - rewrite String.eqb_sym, Hne. reflexivity.
  - destruct (String.eqb k0 k) eqn:Hk; simpl.
    + apply String.eqb_eq in Hk as ->. rewrite String.eqb_sym, Hne. reflexivity.
    + destruct (String.eqb k0 k'); [reflexivity|exact IH].
Qed.


Lemma receive_chunks (chunks : list string) (x : Http.exchange) :
  fold_left (fun x chunk => Http.on_data chunk x) chunks x
  = Http.Exchange (Http.history x) (Http.responseData x +:+ Http.text_of chunks).
Proof.
  revert x. induction chunks as [|chunk chunks IH]; intros x; simpl.
  - rewrite append_empty. by destruct x.
  - rewrite IH. simpl. by rewrite append_assoc.
Qed.

Section HttpHelper.

Context (P : Http.platform).

(** X20. A request that was started: a body is written exactly when
    [options.data] is truthy and [JSON.stringify] gives text for it, and
    then the [Content-Type] header passed on is [application/json],
    whatever the caller gave under that name, the caller's other headers
    being kept; without a body (also for the data [0], [false], the empty
    string or [null]) the caller's headers are passed on as they are. *)
Theorem request_body_and_content_type (url options : value) (x' : Http.exchange) :
  Http.request P url options Http.initial = (Normal tt, x') ->
  let data := JS.prop_opt "data" options in
  let given := Http.spread (JS.prop_opt "headers" options) in
  exists t o,
    Http.requested x' = [(t, o)]
    /\ if JS.truthy data && JS.stringify_defined data then
         Http.written x' = [data]
         /\ JS.lookup_field "Content-Type" (Http.o_headers o) = VStr "application/json"
         /\ forall k, k <> "Content-Type" ->
              JS.lookup_field k (Http.o_headers o) = JS.lookup_field k given
       else Http.written x' = [] /\ Http.o_headers o = given.
Proof.
  intros H data given. unfold Http.request in H.
  destruct (Http.new_URL P url) as [u|e]; [|discriminate].
  destruct (Http.start P _ _); [|discriminate].
  destruct (Http.setTimeout P _); [|discriminate].
  injection H as <-.
  exists (Http.transport_of u), (Http.options_of u options).
  unfold Http.options_of, Http.headers_of, Http.body_of. fold data. fold given. simpl.
  destruct (JS.truthy data && JS.stringify_defined data); simpl.
  - split; [reflexivity|]. split; [reflexivity|].
    split; [apply lookup_set_field_eq|intros k Hk; by apply lookup_set_field_ne].
  - split; [reflexivity|]. split; reflexivity.
Qed.

(** X21. The chunks of the response are put together in the order they came
    and parsed at the end. When the text is JSON the callback is called
    once, with no error and the parsed text as [body]; when it is not, the
    callback is called once with an error that quotes the whole text. *)
Theorem response_is_delivered (k : nat) (chunks : list string) :
  let text := Http.text_of chunks in
  match Http.parse P text with
  | inr body =>
      Http.apply P k VNull (VObj [("body", body)]) = Normal tt ->
      exists x',
        Http.respond P (VFun k) chunks Http.initial = (Normal tt, x')
        /\ Http.called x' = [(k, VNull, VObj [("body", body)])]
  | inl _ =>
      exists x',
        Http.respond P (VFun k) chunks Http.initial
        = (Http.apply P k (JS.Error ("Invalid JSON response: " +:+ text)) VNull, x')
        /\ Http.called x' = [(k, JS.Error ("Invalid JSON response: " +:+ text), VNull)]
  end.
Proof.
  intros text. unfold Http.respond. rewrite receive_chunks.
  change (Http.responseData Http.initial +:+ Http.text_of chunks) with text.
  unfold Http.on_end. simpl.
  destruct (Http.parse P text) as [detail|body].
  - eexists. split; reflexivity.
  - intros ->. eexists. split; reflexivity.
Qed.

(** X22. A callback that throws on a good response is called a second time:
    the call is inside the [try] block that guards [JSON.parse], so its
    exception is taken for a parse failure, and the callback gets an
    [Invalid JSON response] error for text that was valid JSON. *)
Theorem throwing_callback_is_called_again (k : nat) (chunks : list string)
    (body e : value) :
  Http.parse P (Http.text_of chunks) = inr body ->
  Http.apply P k VNull (VObj [("body", body)]) = Abrupt e ->
  exists x',
    Http.respond P (VFun k) chunks Http.initial
    = (Http.apply P k (JS.Error ("Invalid JSON response: " +:+ Http.text_of chunks)) VNull, x')
    /\ rev (Http.called x')
       = [(k, VNull, VObj [("body", body)]);
          (k, JS.Error ("Invalid JSON response: " +:+ Http.text_of chunks), VNull)].
Proof.
  intros Hparse Hthrows. unfold Http.respond. rewrite receive_chunks.
  change (Http.responseData Http.initial +:+ Http.text_of chunks) with (Http.text_of chunks).
  unfold Http.on_end. simpl. rewrite Hparse. simpl. rewrite Hthrows.
  eexists. split; reflexivity.
Qed.


End HttpHelper.

Lemma request_body_and_content_type_witness :
  exists t o,
    Http.requested
      (Http.request Http.sample_platform (VStr "https://example.org/search?q=abc")
         (VObj [("method", VStr "POST"); ("data", VObj [("q", VStr "abc")]);
                ("headers", VObj [("Content-Type", VStr "text/plain");
                                  ("Accept", VStr "*/*")])])
         Http.initial).2
    = [(t, o)]
    /\ Http.written
         (Http.request Http.sample_platform (VStr "https://example.org/search?q=abc")
            (VObj [("method", VStr "POST"); ("data", VObj [("q", VStr "abc")]);
                   ("headers", VObj [("Content-Type", VStr "text/plain");
                                     ("Accept", VStr "*/*")])])
            Http.initial).2
       = [VObj [("q", VStr "abc")]]
    /\ JS.lookup_field "Content-Type" (Http.o_headers o) = VStr "application/json"
    /\ forall k, k <> "Content-Type" ->
         JS.lookup_field k (Http.o_headers o)
         = JS.lookup_field k [("Content-Type", VStr "text/plain"); ("Accept", VStr "*/*")].
Proof.
  apply (request_body_and_content_type Http.sample_platform
           (VStr "https://example.org/search?q=abc")
           (VObj [("method", VStr "POST"); ("data", VObj [("q", VStr "abc")]);
                  ("headers", VObj [("Content-Type", VStr "text/plain");
                                    ("Accept", VStr "*/*")])])).
  reflexivity.
Defined.

(** A request whose data is the number 0 is sent without a body. *)
Example request_with_data_zero :
  rev (Http.history
         (Http.request Http.sample_platform (VStr "https://example.org/search?q=abc")
            (VObj [("method", VStr "POST"); ("data", VNum 0)]) Http.initial).2)
  = [Http.Logged DEBUG "[HTTP Request]";
     Http.Requested Http.https
       (Http.ReqOptions "example.org" "" "/search?q=abc" (VStr "POST") []);
     Http.TimeoutSet (VNum 5000);
     Http.Ended].
Proof. reflexivity. Qed.

(** A response in two chunks. *)
Example response_in_two_chunks :
  Http.respond Http.sample_platform (VFun 0) ["[1"; ",2]"] Http.initial
  = (Normal tt,
     Http.Exchange
       [Http.Called 0 VNull (VObj [("body", VArr [VNum 1; VNum 2])]);
        Http.Logged DEBUG "[HTTP Response]"]
       "[1,2]").
Proof. reflexivity. Qed.

Lemma throwing_callback_is_called_again_witness :
  exists x',
    Http.respond Http.sample_platform (VFun 0) ["nu"; "ll"] Http.initial
    = (Http.apply Http.sample_platform 0
         (JS.Error ("Invalid JSON response: " +:+ Http.text_of ["nu"; "ll"])) VNull, x')
    /\ rev (Http.called x')
       = [(0, VNull, VObj [("body", VNull)]);
          (0, JS.Error ("Invalid JSON response: " +:+ Http.text_of ["nu"; "ll"]), VNull)].
Proof.
  apply (throwing_callback_is_called_again Http.sample_platform 0 ["nu"; "ll"] VNull
           (JS.TypeError "Cannot read properties of null (reading 'list')"));
    reflexivity.
Defined.


(** ** The operations, end to end *)

Section Operations.

Context (E : env).





End Operations.


